(** * box-node-sdk: the API request engine (src/api-request.ts)

    A shallow embedding of [APIRequest]: the classifier [isTemporaryError],
    the eligibility test [isRequestRetryable], the header scrubber
    [cleanSensitiveHeaders], and the methods [execute], [_handleResponse],
    [_retry] and [_finish], run by a small model of the Node event loop
    (one job at a time, jobs queued by [await], [setTimeout] and
    [process.nextTick]). *)

From stdpp Require Import base option list strings gmap.
From Stdlib Require Import ZArith QArith Lia.

Local Open Scope string_scope.
Local Open Scope Z_scope.

(** ** JavaScript values *)

(** A JS number as far as this file needs one: an integer or NaN.  Retry
    counts, status codes and delays in milliseconds are integers. *)
Inductive number :=
  | Num (z : Z)
  | NaN.

(** Heap addresses of the objects that are shared by reference. *)
Definition loc := positive.

Inductive value :=
  | VUndefined
  | VNull
  | VBool (b : bool)
  | VNum (n : number)
  | VStr (s : string)
  | VObj (l : loc).

(** ToBoolean, the test behind [if (x)], [!x] and [x || y]. *)
Definition truthy (v : value) : bool :=
  match v with
  | VUndefined | VNull => false
  | VBool b => b
  | VNum (Num z) => negb (z =? 0)
  | VNum NaN => false
  | VStr s => negb (String.eqb s "")
  | VObj _ => true
  end.

(** [a * b] on numbers. *)
Definition num_mul (a b : number) : number :=
  match a, b with
  | Num x, Num y => Num (x * y)
  | _, _ => NaN
  end.

(** A plain object used as a string-keyed record of values. *)
Abbreviation object := (gmap string value).

(** [o.k] and [o[k]]: a missing property reads as undefined. *)
Definition get (o : object) (k : string) : value :=
  default VUndefined (o !! k).

(** [o.hasOwnProperty(k)] *)
Definition hasOwnProperty (o : object) (k : string) : bool :=
  bool_decide (is_Some (o !! k)).

(** ** Constants *)

Definition REMOVED_HEADER_MESSAGE : string := "[REMOVED BY SDK]".

Definition HTTP_STATUS_CODE_SERVER_ERROR_BLOCK_RANGE : Z * Z := (500, 599).

(** The three codes of the [http-status] package that the file refers to. *)
Module httpStatusCodes.
Definition REQUEST_TIMEOUT : Z := 408.
Definition TOO_MANY_REQUESTS : Z := 429.
Definition INSUFFICIENT_STORAGE : Z := 507.
End httpStatusCodes.

(** [retryableStatusCodes]: an empty object with two entries set to true. *)
Definition retryableStatusCodes : gmap Z bool :=
  <[httpStatusCodes.TOO_MANY_REQUESTS := true]>
    (<[httpStatusCodes.REQUEST_TIMEOUT := true]> ∅).

(** ** Requests, responses, errors *)

(** The object handed to axios ([this.request]).  [headers] is a reference:
    it is the very object held by [config.request.headers]. *)
Record AxiosRequestConfig := {
  req_url : string;
  req_method : string;
  req_headers : option loc;
  req_data : value;
  req_maxRedirects : Z;
  req_responseType : option string;
}.

(** What axios resolves with.  Response headers map names to strings
    ([Record<string, string>]); the field is optional because [_retry] asks
    for it with [hasOwnProperty]. *)
Record AxiosResponse := {
  status : Z;
  resp_headers : option (gmap string string);
  data : value;
}.

(** An Error object together with the properties the file attaches to it. *)
Record Error := {
  message : string;
  err_request : option AxiosRequestConfig;
  err_response : option AxiosResponse;
  err_status : option Z;
  maxRetriesExceeded : option bool;
}.

Definition new_Error (msg : string) : Error :=
  {| message := msg; err_request := None; err_response := None;
     err_status := None; maxRetriesExceeded := None |}.

(** ** Error classifier *)

Definition isTemporaryError (response : AxiosResponse) : bool :=
  let statusCode := status response in
  if negb (statusCode =? httpStatusCodes.INSUFFICIENT_STORAGE)
     && (fst HTTP_STATUS_CODE_SERVER_ERROR_BLOCK_RANGE <=? statusCode)
     && (statusCode <=? snd HTTP_STATUS_CODE_SERVER_ERROR_BLOCK_RANGE)
  then true
  else if default false (retryableStatusCodes !! statusCode)
  then true
  else false.


(** ** Configuration *)

(** [config.request], the options the request was built with.  A header
    value is a string, a number or a boolean; [formData] is any value, an
    object when a multipart body is given.  [form] and [qs] are [None]
    when the property is not there. *)
Record RequestOptions := {
  url : string;
  method : string;
  headers : option loc;
  qs : option object;
  body : value;
  form : option object;
  formData : value;
}.

(** The argument and the result of a custom retry strategy.  The result is
    any value, or an instance of Error. *)
Record RetryOptions := {
  ro_error : Error;
  ro_numRetryAttempts : Z;
  ro_numMaxRetries : Z;
  ro_retryIntervalMS : Z;
  ro_totalElapsedTimeMS : Q;
}.

Inductive StrategyReturn :=
  | Ret (v : value)
  | RetError (e : Error).

(** The configuration as this file reads it: the class ([util/config]) is
    not among these sources, the fields are the four the request uses. *)
Record Config := {
  request : RequestOptions;
  numMaxRetries : Z;
  retryIntervalMS : Z;
  retryStrategy : option (RetryOptions -> StrategyReturn);
}.

(** ** Retry eligibility *)

Definition isRequestRetryable (options : RequestOptions) : bool :=
  negb (truthy (formData options)).

(** ** The header scrubber *)

Abbreviation Heap := (gmap loc object).

(** [cleanSensitiveHeaders] writes into the headers object its argument
    refers to. *)
Definition cleanSensitiveHeaders (requestObj : AxiosRequestConfig) (h : Heap)
  : Heap :=
  match req_headers requestObj with
  | Some l =>
      match h !! l with
      | Some hd =>
          let hd1 :=
            if truthy (get hd "BoxApi")
            then <["BoxApi" := VStr REMOVED_HEADER_MESSAGE]> hd else hd in
          let hd2 :=
            if truthy (get hd1 "Authorization")
            then <["Authorization" := VStr REMOVED_HEADER_MESSAGE]> hd1
            else hd1 in
          <[l := hd2]> h
      | None => h
      end
  | None => h
  end.

(** ** The request object and the event loop

    The methods below are run one job at a time, as Node runs them: the
    part of [execute] before its [await], the part after it, a timer that
    calls [execute] again, the closure given to [process.nextTick].  What a
    job does to the outside is recorded as a list of events; the answers of
    the network are an input, one [Outcome] for each attempt.  Event
    listeners and the retry strategy are taken to return normally, so the
    [catch] of [execute] only ever sees a rejection of axios.  The two
    assertions of the constructor are on the types of its arguments and
    hold here by typing. *)

(** The completion callback is known by a name only. *)
Definition Callback := nat.

Record APIRequest := {
  config : Config;
  isRetryable : bool;
  _callback : option Callback;
  this_request : option AxiosRequestConfig;
  this_response : option AxiosResponse;
  numRetries : option Z;
}.

(** [new APIRequest(config, eventBus)] *)
Definition constructor (cfg : Config) : APIRequest :=
  {| config := cfg;
     isRetryable := isRequestRetryable (request cfg);
     _callback := None;
     this_request := None;
     this_response := None;
     numRetries := None |}.

(** What one attempt meets on the network: axios resolves with a response
    (whatever its status, since [validateStatus] accepts all) or rejects
    with an error. *)
Inductive Outcome :=
  | Resolved (r : AxiosResponse)
  | Rejected (e : Error).

(** What the code does to the outside, in the order it does it. *)
Inductive Event :=
  | EvAxios (req : AxiosRequestConfig) (sent : option object)
  | EvEmit (err : option Error) (response : option AxiosResponse)
  | EvSetTimeout (retryTimeout : number)
  | EvNextTick
  | EvCallback (cb : Callback) (err : option Error)
      (response : option AxiosResponse).

(** Jobs waiting in the event loop: a call of [execute] (the caller's, or
    the one a timer makes with no argument), an [execute] suspended at its
    [await], and the closure [_finish] hands to [process.nextTick]. *)
Inductive Task :=
  | TExecute (callback : option Callback)
  | TAwait (callbackMode : bool)
  | TTick (callback : option Callback) (err : option Error)
      (response : option AxiosResponse).

Record Machine := {
  this : APIRequest;
  heap : Heap;
  asyncRequestTimer : option (Z * Z);
  clock : nat;
  queue : list Task;
}.

Definition set_this (f : APIRequest -> APIRequest) (m : Machine) : Machine :=
  {| this := f (this m); heap := heap m;
     asyncRequestTimer := asyncRequestTimer m;
     clock := clock m; queue := queue m |}.

Definition set_queue (f : list Task -> list Task) (m : Machine) : Machine :=
  {| this := this m; heap := heap m;
     asyncRequestTimer := asyncRequestTimer m;
     clock := clock m; queue := f (queue m) |}.

Definition set_asyncRequestTimer (t : option (Z * Z)) (m : Machine)
  : Machine :=
  {| this := this m; heap := heap m; asyncRequestTimer := t;
     clock := clock m; queue := queue m |}.

Definition tick_clock (m : Machine) : Machine :=
  {| this := this m; heap := heap m;
     asyncRequestTimer := asyncRequestTimer m;
     clock := S (clock m); queue := queue m |}.

Definition with_callback (cb : option Callback) (a : APIRequest)
  : APIRequest :=
  {| config := config a; isRetryable := isRetryable a; _callback := cb;
     this_request := this_request a; this_response := this_response a;
     numRetries := numRetries a |}.

Definition with_request (r : option AxiosRequestConfig) (a : APIRequest)
  : APIRequest :=
  {| config := config a; isRetryable := isRetryable a;
     _callback := _callback a;
     this_request := r; this_response := this_response a;
     numRetries := numRetries a |}.

Definition with_response (r : option AxiosResponse) (a : APIRequest)
  : APIRequest :=
  {| config := config a; isRetryable := isRetryable a;
     _callback := _callback a;
     this_request := this_request a; this_response := r;
     numRetries := numRetries a |}.

Definition with_numRetries (n : option Z) (a : APIRequest) : APIRequest :=
  {| config := config a; isRetryable := isRetryable a;
     _callback := _callback a;
     this_request := this_request a; this_response := this_response a;
     numRetries := n |}.

Definition attach_request (r : option AxiosRequestConfig) (e : Error)
  : Error :=
  {| message := message e; err_request := r;
     err_response := err_response e; err_status := err_status e;
     maxRetriesExceeded := maxRetriesExceeded e |}.

Definition attach_response (r : AxiosResponse) (e : Error) : Error :=
  {| message := message e; err_request := err_request e;
     err_response := Some r; err_status := Some (status r);
     maxRetriesExceeded := maxRetriesExceeded e |}.

Definition mark_maxRetriesExceeded (e : Error) : Error :=
  {| message := message e; err_request := err_request e;
     err_response := err_response e; err_status := err_status e;
     maxRetriesExceeded := Some true |}.

(** [x ?? y] takes [y] when [x] is null or undefined. *)
Definition nullish (v : value) : bool :=
  match v with VUndefined | VNull => true | _ => false end.

Definition JWT_BEARER : string :=
  "urn:ietf:params:oauth:grant-type:jwt-bearer".

(** [v === s] for a string [s] *)
Definition strict_eq_string (v : value) (s : string) : bool :=
  match v with VStr t => String.eqb t s | _ => false end.

Section Runtime.

(** What the JS runtime and the imported modules compute: the query
    serialiser of [querystring] (on a missing object it gives the empty
    string), the status line used as the message of a temporary error
    (the status and its [http-status] name), the backoff of
    [util/exponential-backoff] (jittered: one resolution of its random
    draws is fixed here), the conversion of a string to a number, and
    [process.hrtime] as read during the n-th job, with its optional
    earlier reading. *)
Variable qs_stringify : option object -> string.
Variable statusLine : Z -> string.
Variable getRetryTimeout : Z -> Z -> number.
Variable StringToNumber : string -> number.
Variable process_hrtime : nat -> option (Z * Z) -> Z * Z.

(** [_finish]: the callback is read now, its call is left to the next
    tick. *)
Definition _finish (err : option Error) (response : option AxiosResponse)
    (m : Machine) : Machine * list Event :=
  let callback := _callback (this m) in
  (set_queue (fun q => (q ++ [TTick callback err response])%list) m,
   [EvNextTick]).

(** The closure of [_finish], when the tick comes. *)
Definition run_tick (callback : option Callback) (err : option Error)
    (response : option AxiosResponse) : list Event :=
  match callback with
  | Some cb =>
      match err with
      | Some e => [EvCallback cb (Some e) None]
      | None => [EvCallback cb None response]
      end
  | None => []
  end.

(** The three [hasOwnProperty] tests of [_retry], and the header they
    guard. *)
Definition retry_after (err : Error) : option string :=
  match err_response err with
  | Some r =>
      match resp_headers r with
      | Some h => h !! "retry-after"
      | None => None
      end
  | None => None
  end.

Definition totalElapsedTimeMS (t : Z * Z) : Q :=
  (inject_Z (fst t * 1000) + Qmake (snd t) 1000000)%Q.

(** The object [_retry] gives the strategy: the error, the count just
    incremented, the two settings, and the time since the timer was set. *)
Definition retryOptions (err : Error) (numRetries : Z) (cfg : Config)
    (totalElapsedTime : Z * Z) : RetryOptions :=
  {| ro_error := err;
     ro_numRetryAttempts := numRetries;
     ro_numMaxRetries := numMaxRetries cfg;
     ro_retryIntervalMS := retryIntervalMS cfg;
     ro_totalElapsedTimeMS := totalElapsedTimeMS totalElapsedTime |}.

Definition _retry (err : Error) (m : Machine) : Machine * list Event :=
  let n := default 0 (numRetries (this m)) in
  let m := set_this (with_numRetries (Some n)) m in
  let cfg := config (this m) in
  if n <? numMaxRetries cfg then
    let n := n + 1 in
    let m := set_this (with_numRetries (Some n)) m in
    let schedule retryTimeout :=
      (set_queue (fun q => (q ++ [TExecute None])%list) m,
       [EvSetTimeout retryTimeout]) in
    match retryStrategy cfg with
    | Some strategy =>
        let totalElapsedTime :=
          process_hrtime (clock m) (asyncRequestTimer m) in
        match strategy (retryOptions err n cfg totalElapsedTime) with
        | Ret (VNum retryTimeout) => schedule retryTimeout
        | RetError e => _finish (Some e) None m
        | Ret _ => _finish (Some err) None m
        end
    | None =>
        match retry_after err with
        | Some v => schedule (num_mul (StringToNumber v) (Num 1000))
        | None => schedule (getRetryTimeout n (retryIntervalMS cfg))
        end
    end
  else
    _finish (Some (mark_maxRetriesExceeded err)) None m.

Definition isJWT (options : RequestOptions) : bool :=
  match form options with
  | Some f =>
      hasOwnProperty f "grant_type"
      && strict_eq_string (get f "grant_type") JWT_BEARER
  | None => false
  end.

(** [_handleResponse(err, response)].  [execute] passes exactly one of
    the two; with neither, the source fails on [response.status]. *)
Definition _handleResponse (err : option Error)
    (response : option AxiosResponse) (m : Machine)
    : Machine * list Event :=
  let err :=
    match err, response with
    | None, Some r =>
        if isTemporaryError r then Some (new_Error (statusLine (status r)))
        else None
    | _, _ => err
    end in
  match err with
  | Some e =>
      let e := attach_request (this_request (this m)) e in
      let e :=
        match response with
        | Some r => attach_response r e
        | None => e
        end in
      let '(m', evs) :=
        if isRetryable (this m) && negb (isJWT (request (config (this m))))
        then _retry e m
        else _finish (Some e) None m in
      (m', EvEmit (Some e) None :: evs)
  | None =>
      let '(m', evs) := _finish None response m in
      (m', EvEmit None response :: evs)
  end.

(** The object literal [execute] assigns to [this.request], the same in
    both branches but for [responseType].  [headers] is the reference held
    by the options, not a copy. *)
Definition axiosRequest (options : RequestOptions)
    (responseType : option string) : AxiosRequestConfig :=
  let url' :=
    match qs options with
    | Some q => url options +:+ "?" +:+ qs_stringify (Some q)
    | None => url options
    end in
  {| req_url := url';
     req_method := method options;
     req_headers := headers options;
     req_data :=
       if nullish (body options) then VStr (qs_stringify (form options))
       else body options;
     req_maxRedirects := 0;
     req_responseType := responseType |}.

(** [execute(callback)] up to its [await]: the request is built and given
    to axios, which reads the headers as they are now. *)
Definition execute (callback : option Callback) (m : Machine)
    : Machine * list Event :=
  let cb :=
    match callback with Some c => Some c | None => _callback (this m) end in
  let m := set_this (with_callback cb) m in
  let options := request (config (this m)) in
  let sent :=
    match headers options with
    | Some l => heap m !! l
    | None => None
    end in
  match cb with
  | Some _ =>
      let m :=
        match asyncRequestTimer m with
        | Some _ => m
        | None =>
            set_asyncRequestTimer (Some (process_hrtime (clock m) None)) m
        end in
      let req := axiosRequest options None in
      let m := set_this (with_request (Some req)) m in
      (set_queue (fun q => (q ++ [TAwait true])%list) m, [EvAxios req sent])
  | None =>
      let req := axiosRequest options (Some "stream") in
      let m := set_this (with_request (Some req)) m in
      (set_queue (fun q => (q ++ [TAwait false])%list) m, [EvAxios req sent])
  end.

(** [execute] after its [await], in either mode. *)
Definition resume (callbackMode : bool) (o : Outcome) (m : Machine)
    : Machine * list Event :=
  match callbackMode, o with
  | true, Resolved r =>
      _handleResponse None (Some r) (set_this (with_response (Some r)) m)
  | true, Rejected e => _handleResponse (Some e) None m
  | false, Resolved r =>
      (set_this (with_response (Some r)) m, [EvEmit None (Some r)])
  | false, Rejected e => (m, [EvEmit (Some e) None])
  end.

(** One job of the event loop.  A suspended [execute] goes on when the
    network has answered: it takes the next outcome, and waits when there
    is none yet. *)
Definition step (world : list Outcome) (m : Machine)
    : option (Machine * list Outcome * list Event) :=
  match queue m with
  | [] => None
  | TExecute callback :: q =>
      let '(m', evs) := execute callback (set_queue (fun _ => q) m) in
      Some (tick_clock m', world, evs)
  | TAwait callbackMode :: q =>
      match world with
      | [] => None
      | o :: world' =>
          let '(m', evs) :=
            resume callbackMode o (set_queue (fun _ => q) m) in
          Some (tick_clock m', world', evs)
      end
  | TTick callback err response :: q =>
      Some (tick_clock (set_queue (fun _ => q) m), world,
            run_tick callback err response)
  end.

(** The loop: jobs are run until none can run, or the fuel is spent.
    The result is the machine, the outcomes not yet used, and the events
    of each job in turn. *)
Fixpoint loop (fuel : nat) (world : list Outcome) (m : Machine)
    : Machine * list Outcome * list (list Event) :=
  match fuel with
  | O => (m, world, [])
  | S fuel' =>
      match step world m with
      | None => (m, world, [])
      | Some (m', world', evs) =>
          let '(mf, wf, tr) := loop fuel' world' m' in
          (mf, wf, evs :: tr)
      end
  end.

(** A logical operation: the object is built and the caller calls
    [execute(callback)].  [asyncRequestTimer] belongs to the module, not to
    the object: it may have been set by an earlier operation. *)
Definition start (timer : option (Z * Z)) (cfg : Config) (h : Heap)
    (callback : option Callback) : Machine :=
  {| this := constructor cfg; heap := h; asyncRequestTimer := timer;
     clock := O; queue := [TExecute callback] |}.

(** Two jobs for each attempt and one for the delivery always suffice. *)
Definition enough (world : list Outcome) : nat :=
  (2 * length world + 3)%nat.

Definition operation (timer : option (Z * Z)) (cfg : Config) (h : Heap)
    (callback : option Callback) (world : list Outcome)
    : Machine * list Outcome * list (list Event) :=
  loop (enough world) world (start timer cfg h callback).

End Runtime.

(** ** Reading a run *)

(** An outcome [_handleResponse] treats as a failure: a transport error, or
    a response classified temporary. *)
Definition failing (o : Outcome) : bool :=
  match o with
  | Rejected _ => true
  | Resolved r => isTemporaryError r
  end.

Definition is_callback (ev : Event) : bool :=
  match ev with EvCallback _ _ _ => true | _ => false end.

Definition is_axios (ev : Event) : bool :=
  match ev with EvAxios _ _ => true | _ => false end.

Definition is_setTimeout (ev : Event) : bool :=
  match ev with EvSetTimeout _ => true | _ => false end.

Definition is_nextTick (ev : Event) : bool :=
  match ev with EvNextTick => true | _ => false end.

(** The events of a run that satisfy a test, in order. *)
Definition those (p : Event -> bool) (tr : list (list Event)) : list Event :=
  List.filter p (concat tr).

Section Reachability.

Variable qs_stringify : option object -> string.
Variable statusLine : Z -> string.
Variable getRetryTimeout : Z -> Z -> number.
Variable StringToNumber : string -> number.
Variable process_hrtime : nat -> option (Z * Z) -> Z * Z.

(** The module's [asyncRequestTimer] when the operation begins. *)
Variable timer : option (Z * Z).

Abbreviation step' :=
  (step qs_stringify statusLine getRetryTimeout StringToNumber
     process_hrtime).

(** The states an operation goes through, whatever the network answers and
    whenever it does. *)
Inductive reachable (cfg : Config) (h : Heap) (callback : option Callback)
  : Machine -> Prop :=
  | reach_start : reachable cfg h callback (start timer cfg h callback)
  | reach_step m world m' world' evs :
      reachable cfg h callback m ->
      step' world m = Some (m', world', evs) ->
      reachable cfg h callback m'.

(** The error [_handleResponse] has in hand for an outcome that fails, once
    the request and the response, if any, are attached. *)
Definition failure (req : option AxiosRequestConfig) (o : Outcome)
  : option Error :=
  match o with
  | Rejected e => Some (attach_request req e)
  | Resolved r =>
      if isTemporaryError r
      then Some (attach_response r
                   (attach_request req (new_Error (statusLine (status r)))))
      else None
  end.

(** The delay [_retry] settles on when it goes for another attempt: the
    strategy's number, else the [retry-after] header times 1000, else the
    backoff.  [None] when a strategy answers with something that is not a
    number. *)
Definition retryTimeout_of (cfg : Config) (e : Error) (n : Z)
    (elapsed : Z * Z) : option number :=
  match retryStrategy cfg with
  | Some strategy =>
      match strategy (retryOptions e n cfg elapsed) with
      | Ret (VNum t) => Some t
      | _ => None
      end
  | None =>
      match retry_after e with
      | Some v => Some (num_mul (StringToNumber v) (Num 1000))
      | None => Some (getRetryTimeout n (retryIntervalMS cfg))
      end
  end.

(** Where a callback-mode operation can be: about to run [execute] (called
    by the caller, or by a timer once the callback is stored), waiting for
    axios, waiting for the tick that delivers, or finished. *)
Inductive phase (cb : Callback) (m : Machine) : Prop :=
  | ph_execute c :
      queue m = [TExecute c] ->
      c = Some cb \/ (c = None /\ _callback (this m) = Some cb) ->
      phase cb m
  | ph_await :
      queue m = [TAwait true] ->
      _callback (this m) = Some cb ->
      this_request (this m) =
        Some (axiosRequest qs_stringify (request (config (this m))) None) ->
      phase cb m
  | ph_tick e r :
      queue m = [TTick (Some cb) e r] ->
      phase cb m
  | ph_done :
      queue m = [] ->
      phase cb m.

Record invariant (cfg : Config) (h : Heap) (cb : Callback) (m : Machine)
  : Prop := {
  inv_config : config (this m) = cfg;
  inv_heap : heap m = h;
  inv_retryable : isRetryable (this m) = isRequestRetryable (request cfg);
  inv_count : forall n, numRetries (this m) = Some n ->
                        0 <= n <= Z.max 0 (numMaxRetries cfg);
  inv_phase : phase cb m;
}.


(** A strategy that always answers with a delay. *)
Definition never_vetoes (cfg : Config) : Prop :=
  forall strategy opts,
    retryStrategy cfg = Some strategy ->
    exists t, strategy opts = Ret (VNum t).

End Reachability.

(** The headers a caller reads through [err.request.headers] on a
    delivered error. *)
Definition delivered_headers (m : Machine) (ev : Event) : option object :=
  match ev with
  | EvCallback _ (Some e) _ =>
      match err_request e with
      | Some req =>
          match req_headers req with
          | Some l => heap m !! l
          | None => None
          end
      | None => None
      end
  | _ => None
  end.

(** ** A runtime and inputs to run the model on *)

Module Demo.

Definition digit_of (c : Ascii.ascii) : option Z :=
  let n := Z.of_nat (Ascii.nat_of_ascii c) in
  if (48 <=? n) && (n <=? 57) then Some (n - 48) else None.

Fixpoint digits (s : string) (acc : Z) : number :=
  match s with
  | EmptyString => Num acc
  | String c s' =>
      match digit_of c with
      | Some d => digits s' (10 * acc + d)
      | None => NaN
      end
  end.

(** Decimal numerals convert to their value, anything else here to NaN. *)
Definition StringToNumber (s : string) : number := digits s 0.

(** The backoff with its jitter factor drawn as 1. *)
Definition getRetryTimeout (numRetries baseInterval : Z) : number :=
  Num (2 ^ (numRetries - 1) * baseInterval).

Definition qs_stringify (o : option object) : string := "".

Definition statusLine (s : Z) : string := "temporary error".

(** A clock that advances one second per job. *)
Definition process_hrtime (n : nat) (time : option (Z * Z)) : Z * Z :=
  match time with
  | Some (s, _) => (Z.of_nat n - s, 0)
  | None => (Z.of_nat n, 0)
  end.

Definition run (cfg : Config) (h : Heap) (callback : option Callback)
    (world : list Outcome) : Machine * list Outcome * list (list Event) :=
  operation qs_stringify statusLine getRetryTimeout StringToNumber
    process_hrtime None cfg h callback world.

Definition options : RequestOptions :=
  {| url := "https://api.box.com/2.0/files/123"; method := "GET";
     headers := Some 1%positive; qs := None; body := VUndefined;
     form := None; formData := VUndefined |}.

Definition upload : RequestOptions :=
  {| url := "https://upload.box.com/api/2.0/files/content";
     method := "POST"; headers := Some 1%positive; qs := None;
     body := VUndefined; form := None; formData := VObj 2%positive |}.

Definition jwt_grant : RequestOptions :=
  {| url := "https://api.box.com/oauth2/token"; method := "POST";
     headers := Some 1%positive; qs := None; body := VUndefined;
     form := Some {[ "grant_type" := VStr JWT_BEARER ]};
     formData := VUndefined |}.

Definition cfg (opts : RequestOptions) (max : Z)
    (strategy : option (RetryOptions -> StrategyReturn)) : Config :=
  {| request := opts; numMaxRetries := max; retryIntervalMS := 2000;
     retryStrategy := strategy |}.

Definition live_headers : object :=
  {[ "Authorization" := VStr "Bearer secret" ]}.

Definition heap0 : Heap := {[ 1%positive := live_headers ]}.

Definition answer (s : Z) : AxiosResponse :=
  {| status := s; resp_headers := Some ∅; data := VUndefined |}.

Definition rate_limited : AxiosResponse :=
  {| status := 429; resp_headers := Some {[ "retry-after" := "120" ]};
     data := VUndefined |}.

Definition ECONNRESET : Error := new_Error "socket hang up".

Definition veto : Error := new_Error "giving up".

Definition vetoing (o : RetryOptions) : StrategyReturn := RetError veto.

Definition declining (o : RetryOptions) : StrategyReturn := Ret VNull.

(** The request every attempt of a configuration sends. *)
Definition sent (c : Config) : AxiosRequestConfig :=
  axiosRequest qs_stringify (request c) None.

(** The error made for an answer with a temporary status. *)
Definition temporary (c : Config) (r : AxiosResponse) : Error :=
  attach_response r
    (attach_request (Some (sent c)) (new_Error (statusLine (status r)))).

(** The state once the caller has called [execute]: the first attempt is
    in flight. *)
Definition in_flight (c : Config) : Machine :=
  match step qs_stringify statusLine getRetryTimeout StringToNumber
          process_hrtime [] (start None c heap0 (Some 7%nat)) with
  | Some (m, _, _) => m
  | None => start None c heap0 (Some 7%nat)
  end.

End Demo.

(** ** The rest of the interface *)

(** [getResponseStream()]: the response as axios resolved it, undefined
    until then. *)
Definition getResponseStream (a : APIRequest) : option AxiosResponse :=
  this_response a.

Definition is_emit (ev : Event) : bool :=
  match ev with EvEmit _ _ => true | _ => false end.

(** The [response] event of a stream-mode attempt: the outcome as it is. *)
Definition stream_event (o : Outcome) : Event :=
  match o with
  | Resolved r => EvEmit None (Some r)
  | Rejected e => EvEmit (Some e) None
  end.

(** The [response] event of a callback-mode attempt: the error in hand for
    an outcome that fails, the response otherwise. *)
Definition response_event (statusLine : Z -> string)
    (req : option AxiosRequestConfig) (o : Outcome) : Event :=
  match failure statusLine req o with
  | Some e => EvEmit (Some e) None
  | None =>
      match o with
      | Resolved r => EvEmit None (Some r)
      | Rejected e => EvEmit (Some e) None
      end
  end.

(** The headers object as [cleanSensitiveHeaders] leaves it. *)
Definition scrubbed (hd : object) : object :=
  let hd1 :=
    if truthy (get hd "BoxApi")
    then <["BoxApi" := VStr REMOVED_HEADER_MESSAGE]> hd else hd in
  if truthy (get hd1 "Authorization")
  then <["Authorization" := VStr REMOVED_HEADER_MESSAGE]> hd1
  else hd1.

Module Inputs.

(** A strategy that always waits ten milliseconds. *)
Definition patient (o : RetryOptions) : StrategyReturn := Ret (VNum (Num 10)).

Definition not_found : AxiosResponse := Demo.answer 404.

(** Headers with both sensitive entries and one that is not. *)
Definition three_headers : object :=
  {[ "Authorization" := VStr "Bearer secret";
     "BoxApi" := VStr "shared_link=https://app.box.com/s/abc";
     "User-Agent" := VStr "Box Node.js SDK" ]}.

(** The state after the first attempt, in flight with [Demo.in_flight],
    was answered 503. *)
Definition answered_503 (c : Config) : Machine :=
  match step Demo.qs_stringify Demo.statusLine Demo.getRetryTimeout
          Demo.StringToNumber Demo.process_hrtime
          [Resolved (Demo.answer 503)] (Demo.in_flight c) with
  | Some (m, _, _) => m
  | None => Demo.in_flight c
  end.

End Inputs.

(** * Properties *)

(** ** The classifier *)

Lemma retryableStatusCodes_lookup (s : Z) :
  default false (retryableStatusCodes !! s) = true <-> s = 408 \/ s = 429.
Proof.
  unfold retryableStatusCodes, httpStatusCodes.TOO_MANY_REQUESTS,
    httpStatusCodes.REQUEST_TIMEOUT.
  destruct (decide (s = 429)) as [->|H429].
  { rewrite lookup_insert_eq. simpl. split; auto. }
  rewrite lookup_insert_ne by congruence.
  destruct (decide (s = 408)) as [->|H408].
  { rewrite lookup_insert_eq. simpl. split; auto. }
  rewrite lookup_insert_ne by congruence.
  rewrite lookup_empty. simpl. split; [discriminate | tauto].
Qed.

(** C2: [isTemporaryError] answers true exactly for the statuses of
    [500,599] other than 507, and for 408 and 429; for 507 and every other
    status it answers false. *)
Theorem isTemporaryError_spec (response : AxiosResponse) :
  isTemporaryError response = true <->
  (500 <= status response <= 599 /\ status response <> 507)
  \/ status response = 408 \/ status response = 429.
Proof.
  unfold isTemporaryError, HTTP_STATUS_CODE_SERVER_ERROR_BLOCK_RANGE,
    httpStatusCodes.INSUFFICIENT_STORAGE.
  cbn [fst snd].
  set (s := status response).
  pose proof (retryableStatusCodes_lookup s) as Hr.
  destruct (s =? 507) eqn:E507; destruct (500 <=? s) eqn:Elo;
    destruct (s <=? 599) eqn:Ehi; cbn [negb andb];
    destruct (default false (retryableStatusCodes !! s)) eqn:Et;
    split; intros H; try reflexivity; try discriminate; lia.
Qed.

(** ** The shape of an operation *)

Section Facts.

Variable qs_stringify : option object -> string.
Variable statusLine : Z -> string.
Variable getRetryTimeout : Z -> Z -> number.
Variable StringToNumber : string -> number.
Variable process_hrtime : nat -> option (Z * Z) -> Z * Z.
Variable timer : option (Z * Z).

Abbreviation step' :=
  (step qs_stringify statusLine getRetryTimeout StringToNumber
     process_hrtime).
Abbreviation loop' :=
  (loop qs_stringify statusLine getRetryTimeout StringToNumber
     process_hrtime).
Abbreviation operation' :=
  (operation qs_stringify statusLine getRetryTimeout StringToNumber
     process_hrtime timer).
Abbreviation reachable' :=
  (reachable qs_stringify statusLine getRetryTimeout StringToNumber
     process_hrtime timer).
Abbreviation failure' := (failure statusLine).
Abbreviation axiosRequest' := (axiosRequest qs_stringify).
Abbreviation retryTimeout_of' :=
  (retryTimeout_of getRetryTimeout StringToNumber).

Abbreviation invariant' := (invariant qs_stringify).

Lemma invariant_start cfg h cb :
  invariant' cfg h cb (start timer cfg h (Some cb)).
Proof.
  split; try reflexivity.
  - intros n Hn. discriminate.
  - eapply ph_execute; [reflexivity | auto].
Qed.

Ltac destruct_machine m :=
  destruct m as [[? ? ? ? ? ?] ? ? ? ?]; cbn in *.

Ltac ltb_to_prop :=
  repeat match goal with
    | H : (_ <? _) = true |- _ => apply Z.ltb_lt in H
    | H : (_ <? _) = false |- _ => apply Z.ltb_ge in H
    end.

Ltac count_tac Hn :=
  let k := fresh "k" in
  let Hk := fresh "Hk" in
  intros k Hk; simplify_eq; ltb_to_prop;
  match goal with
  | nr : option Z |- _ =>
      destruct nr as [?|]; cbn in *;
      [ pose proof (Hn _ eq_refl) | ]; lia
  end.

Ltac same_call :=
  repeat match goal with
    | H1 : ?x = ?a, H2 : ?x = ?b |- _ => rewrite H1 in H2; simplify_eq
    end.

Ltac crunch :=
  repeat first
    [ progress cbn in *
    | progress simplify_eq
    | progress same_call
    | case_match ].

Lemma invariant_step cfg h cb m world m' world' evs :
  invariant' cfg h cb m ->
  step' world m = Some (m', world', evs) ->
  invariant' cfg h cb m'.
Proof.
  intros [Hc Hh Hr Hn Hp] Hs.
  destruct_machine m. subst.
  unfold step in Hs. cbn in Hs.
  destruct Hp as [c Hq Hc | Hq Hcb Hreq | e r Hq | Hq]; cbn in *; subst.
  - unfold execute in Hs; cbn in Hs.
    destruct Hc as [-> | [-> ->]]; cbn in Hs;
      repeat case_match; simplify_eq; cbn;
      (split; cbn; [done | done | done | auto | eapply ph_await; cbn; eauto]).
  - destruct world as [|o w]; [discriminate|].
    unfold resume, _handleResponse, _retry, _finish in Hs. cbn in Hs.
    repeat case_match; simplify_eq; cbn.
    all: split; cbn; try done.
    all: try (intros ? ?; simplify_eq; lia).
    all: try (eapply ph_tick; cbn; eauto; fail).
    all: try (eapply ph_execute; cbn; eauto; fail).
    all: count_tac Hn.
  - simplify_eq. split; cbn; try done. by apply ph_done.
  - discriminate.
Qed.

Lemma reachable_invariant cfg h cb m :
  reachable' cfg h (Some cb) m -> invariant' cfg h cb m.
Proof.
  induction 1 as [|m world m' world' evs _ IH Hs].
  - apply invariant_start.
  - eapply invariant_step; eauto.
Qed.

(** The three kinds of job, one lemma each. *)

Lemma step_execute cfg h cb m c world :
  invariant' cfg h cb m ->
  queue m = [TExecute c] ->
  exists m' req sent,
    step' world m = Some (m', world, [EvAxios req sent])
    /\ queue m' = [TAwait true]
    /\ numRetries (this m') = numRetries (this m)
    /\ req = axiosRequest' (request cfg) None
    /\ sent = match headers (request cfg) with
              | Some l => h !! l
              | None => None
              end.
Proof.
  intros [Hc Hh Hr Hn Hp] Hq.
  destruct_machine m. subst.
  destruct Hp as [c' Hq Hc | Hq Hcb Hreq | e r Hq | Hq]; cbn in *;
    simplify_eq.
  unfold step, execute; cbn.
  destruct Hc as [-> | [-> ->]]; cbn;
    repeat case_match; simplify_eq; cbn; eauto 10.
Qed.

Lemma step_tick m cb e r world :
  queue m = [TTick (Some cb) e r] ->
  exists m',
    step' world m = Some (m', world, run_tick (Some cb) e r)
    /\ queue m' = [] /\ this m' = this m /\ heap m' = heap m.
Proof.
  intros Hq. destruct_machine m. subst. unfold step; cbn. eauto.
Qed.

Lemma step_done m world : queue m = [] -> step' world m = None.
Proof. intros Hq. unfold step. by rewrite Hq. Qed.

Lemma loop_done fuel m world :
  queue m = [] -> loop' fuel world m = (m, world, []).
Proof.
  intros Hq. destruct fuel; [done|]. cbn. by rewrite step_done.
Qed.

Lemma loop_step fuel world m m' world' evs :
  step' world m = Some (m', world', evs) ->
  loop' (S fuel) world m =
  (let '(mf, wf, tr) := loop' fuel world' m' in (mf, wf, evs :: tr)).
Proof. intros Hs. cbn. by rewrite Hs. Qed.

(** The job that follows the answer of axios either hands the outcome to
    [_finish], or sets a timer for another attempt after counting it. *)
Lemma step_await cfg h cb m o world :
  invariant' cfg h cb m ->
  queue m = [TAwait true] ->
  exists m' evs,
    step' (o :: world) m = Some (m', world, evs)
    /\ List.filter is_callback evs = []
    /\ ((exists e r, queue m' = [TTick (Some cb) e r]
                     /\ List.filter is_nextTick evs = [EvNextTick]
                     /\ List.filter is_setTimeout evs = []
                     /\ List.filter is_axios evs = [])
        \/ (queue m' = [TExecute None]
            /\ failing o = true
            /\ isRequestRetryable (request cfg) = true
            /\ isJWT (request cfg) = false
            /\ default 0 (numRetries (this m)) < numMaxRetries cfg
            /\ numRetries (this m') = Some (default 0 (numRetries (this m)) + 1)
            /\ List.filter is_nextTick evs = []
            /\ List.filter is_axios evs = []
            /\ exists retryTimeout,
                List.filter is_setTimeout evs = [EvSetTimeout retryTimeout])).
Proof.
  intros [Hc Hh Hr Hn Hp] Hq.
  destruct_machine m. subst.
  destruct Hp as [c' Hq Hc | Hq Hcb Hreq | e r Hq | Hq]; cbn in *;
    simplify_eq.
  unfold step, resume, _handleResponse, _retry, _finish; cbn.
  destruct o as [r|e]; cbn.
  all: repeat case_match; simplify_eq; cbn.
  all: do 2 eexists; split; [reflexivity|]; cbn; split; [reflexivity|].
  all: try (left; do 2 eexists; cbn; done).
  all: right; cbn; ltb_to_prop.
  all: repeat match goal with
         | H : _ && _ = true |- _ => apply andb_prop in H as [? ?]
         | H : negb _ = true |- _ => apply negb_true_iff in H
         end.
  all: repeat split; eauto.
Qed.


(** What the job after the answer does with a failure, case by case. *)

Lemma step_await_not_retried cfg h cb m o world e :
  invariant' cfg h cb m ->
  queue m = [TAwait true] ->
  isRequestRetryable (request cfg) && negb (isJWT (request cfg)) = false ->
  failure' (Some (axiosRequest' (request cfg) None)) o = Some e ->
  exists m',
    step' (o :: world) m = Some (m', world, [EvEmit (Some e) None; EvNextTick])
    /\ queue m' = [TTick (Some cb) (Some e) None]
    /\ numRetries (this m') = numRetries (this m).
Proof.
  intros [Hc Hh Hr Hn Hp] Hq Hnot Hf.
  destruct_machine m. subst.
  destruct Hp as [c' Hq Hc | Hq Hcb Hreq | e' r Hq | Hq]; cbn in *;
    simplify_eq.
  unfold step, resume, _handleResponse, _finish; cbn.
  rewrite Hnot.
  destruct o as [r|e0]; cbn in *;
    repeat case_match; simplify_eq; cbn; eauto.
Qed.

Lemma step_await_exhausted cfg h cb m o world e :
  invariant' cfg h cb m ->
  queue m = [TAwait true] ->
  isRequestRetryable (request cfg) = true ->
  isJWT (request cfg) = false ->
  failure' (Some (axiosRequest' (request cfg) None)) o = Some e ->
  numMaxRetries cfg <= default 0 (numRetries (this m)) ->
  exists m',
    step' (o :: world) m = Some (m', world, [EvEmit (Some e) None; EvNextTick])
    /\ queue m' = [TTick (Some cb) (Some (mark_maxRetriesExceeded e)) None]
    /\ numRetries (this m') = Some (default 0 (numRetries (this m))).
Proof.
  intros [Hc Hh Hr Hn Hp] Hq Hre Hjwt Hf Hmax.
  destruct_machine m. subst.
  destruct Hp as [c' Hq Hc | Hq Hcb Hreq | e' r Hq | Hq]; cbn in *;
    simplify_eq.
  unfold step, resume, _handleResponse, _retry, _finish; cbn.
  rewrite Hre, Hjwt. cbn.
  apply Z.ltb_ge in Hmax.
  destruct o as [r|e0]; cbn in *;
    repeat case_match; simplify_eq; cbn; rewrite ?Hmax; cbn; eauto.
Qed.

Lemma step_await_retry cfg h cb m o world e t :
  invariant' cfg h cb m ->
  queue m = [TAwait true] ->
  isRequestRetryable (request cfg) = true ->
  isJWT (request cfg) = false ->
  failure' (Some (axiosRequest' (request cfg) None)) o = Some e ->
  default 0 (numRetries (this m)) < numMaxRetries cfg ->
  retryTimeout_of' cfg e (default 0 (numRetries (this m)) + 1)
    (process_hrtime (clock m) (asyncRequestTimer m)) = Some t ->
  exists m',
    step' (o :: world) m
    = Some (m', world, [EvEmit (Some e) None; EvSetTimeout t])
    /\ queue m' = [TExecute None]
    /\ numRetries (this m') = Some (default 0 (numRetries (this m)) + 1).
Proof.
  intros [Hc Hh Hr Hn Hp] Hq Hre Hjwt Hf Hmax Ht.
  destruct_machine m. subst.
  destruct Hp as [c' Hq Hc | Hq Hcb Hreq | e' r Hq | Hq]; cbn in *;
    simplify_eq.
  unfold step, resume, _handleResponse, _retry, _finish; cbn.
  rewrite Hre, Hjwt. cbn.
  apply Z.ltb_lt in Hmax.
  unfold retryTimeout_of, retry_after in *.
  destruct o as [r|e0]; cbn in *;
    rewrite ?Hmax; crunch; eauto; congruence.
Qed.

Lemma step_await_vetoed cfg h cb m o world e strategy :
  invariant' cfg h cb m ->
  queue m = [TAwait true] ->
  isRequestRetryable (request cfg) = true ->
  isJWT (request cfg) = false ->
  failure' (Some (axiosRequest' (request cfg) None)) o = Some e ->
  default 0 (numRetries (this m)) < numMaxRetries cfg ->
  retryStrategy cfg = Some strategy ->
  retryTimeout_of' cfg e (default 0 (numRetries (this m)) + 1)
    (process_hrtime (clock m) (asyncRequestTimer m)) = None ->
  exists m',
    step' (o :: world) m = Some (m', world, [EvEmit (Some e) None; EvNextTick])
    /\ queue m' =
         [TTick (Some cb)
            (Some match strategy
                         (retryOptions e (default 0 (numRetries (this m)) + 1)
                            cfg
                            (process_hrtime (clock m) (asyncRequestTimer m)))
                  with
                  | RetError e' => e'
                  | Ret _ => e
                  end)
            None].
Proof.
  intros [Hc Hh Hr Hn Hp] Hq Hre Hjwt Hf Hmax Hs Ht.
  destruct_machine m. subst.
  destruct Hp as [c' Hq Hc | Hq Hcb Hreq | e' r Hq | Hq]; cbn in *;
    simplify_eq.
  unfold step, resume, _handleResponse, _retry, _finish; cbn.
  rewrite Hre, Hjwt. cbn.
  apply Z.ltb_lt in Hmax.
  unfold retryTimeout_of, retry_after in *. rewrite Hs in Ht.
  destruct o as [r|e0]; cbn in *;
    rewrite ?Hmax, ?Hs; crunch; eauto; congruence.
Qed.


(** ** Runs *)

Lemma those_cons p t tr :
  those p (t :: tr) = (List.filter p t ++ those p tr)%list.
Proof. unfold those. cbn. apply List.filter_app. Qed.

Lemma run_tick_callback cb e r :
  exists e' r', run_tick (Some cb) e r = [EvCallback cb e' r'].
Proof. destruct e; cbn; eauto. Qed.

Lemma failing_failure req o :
  failing o = true -> exists e, failure' req o = Some e.
Proof.
  destruct o as [r|e]; cbn; intros H; [rewrite H|]; eauto.
Qed.

Lemma never_vetoes_timeout cfg e n elapsed :
  never_vetoes cfg -> exists t, retryTimeout_of' cfg e n elapsed = Some t.
Proof.
  intros Hv. unfold retryTimeout_of.
  destruct (retryStrategy cfg) as [s|] eqn:Hs.
  - destruct (Hv s (retryOptions e n cfg elapsed) Hs) as [t ->]. eauto.
  - destruct (retry_after e); eauto.
Qed.


(** Whatever the network does, the callback is never called twice. *)
Lemma callback_at_most_once cfg h cb fuel :
  forall m world,
    invariant' cfg h cb m ->
    (length (those is_callback (loop' fuel world m).2) <= 1)%nat.
Proof.
  induction fuel as [|fuel IH]; intros m world Hinv; [cbn; lia|].
  destruct (step' world m) as [[[m' w'] evs]|] eqn:Hs.
  2: { cbn. rewrite Hs. cbn. lia. }
  rewrite (loop_step _ _ _ _ _ _ Hs).
  pose proof (invariant_step _ _ _ _ _ _ _ _ Hinv Hs) as Hinv'.
  specialize (IH m' w' Hinv').
  destruct (loop' fuel w' m') as [[mf wf] tr] eqn:Hl. cbn -[those] in *.
  rewrite those_cons, length_app.
  destruct (inv_phase _ _ _ _ _ Hinv) as [c Hq Hc | Hq Hcb Hreq | e r Hq | Hq].
  - destruct (step_execute _ _ _ _ _ world Hinv Hq)
      as (m2 & req & sent & Hs2 & _).
    rewrite Hs in Hs2. simplify_eq. cbn. lia.
  - destruct world as [|o w]; [unfold step in Hs; rewrite Hq in Hs; done|].
    destruct (step_await _ _ _ _ o w Hinv Hq) as (m2 & evs2 & Hs2 & Hcb2 & _).
    rewrite Hs in Hs2. simplify_eq. rewrite Hcb2. cbn. lia.
  - destruct (step_tick m cb e r world Hq) as (m2 & Hs2 & Hq2 & _).
    rewrite Hs in Hs2. simplify_eq.
    rewrite (loop_done _ _ _ Hq2) in Hl. simplify_eq.
    destruct (run_tick_callback cb e r) as (e' & r' & ->). cbn. lia.
  - rewrite step_done in Hs; done.
Qed.



(** From an attempt in flight on a retryable request whose attempts all
    fail, the run makes every retry that is left and then gives up. *)
Lemma await_exhausts cfg h cb (k : nat) :
  isRequestRetryable (request cfg) = true ->
  isJWT (request cfg) = false ->
  never_vetoes cfg ->
  forall m world fuel,
    invariant' cfg h cb m ->
    queue m = [TAwait true] ->
    Z.to_nat (numMaxRetries cfg - default 0 (numRetries (this m)))%Z = k ->
    Forall (fun o => failing o = true) (take (S k) world) ->
    (k < length world)%nat ->
    (2 * k + 2 <= fuel)%nat ->
    exists mf tr last e,
      loop' fuel world m = (mf, drop (S k) world, tr)
      /\ queue mf = []
      /\ world !! k = Some last
      /\ failure' (Some (axiosRequest' (request cfg) None)) last = Some e
      /\ those is_callback tr
          = [EvCallback cb (Some (mark_maxRetriesExceeded e)) None]
      /\ length (those is_axios tr) = k
      /\ length (those is_setTimeout tr) = k.
Proof.
  intros Hre Hjwt Hveto.
  induction k as [|k IH]; intros m world fuel Hinv Hq Hk Hfail Hlen Hfuel.
  all: destruct world as [|o w]; [cbn in Hlen; lia|].
  all: destruct fuel as [|[|fuel]]; [lia|lia|].
  all: cbn [take] in Hfail; apply Forall_cons in Hfail as [Ho Hfail].
  all: destruct (failing_failure (Some (axiosRequest' (request cfg) None)) o Ho)
         as [e He].
  - destruct (step_await_exhausted _ _ _ _ _ w _ Hinv Hq Hre Hjwt He)
      as (m' & Hs & Hq' & _); [lia|].
    destruct (step_tick m' cb _ None w Hq') as (m'' & Hs' & Hq'' & _).
    rewrite (loop_step _ _ _ _ _ _ Hs), (loop_step _ _ _ _ _ _ Hs'),
      (loop_done _ _ _ Hq'').
    exists m''; eexists; exists o, e. cbn. rewrite drop_0. repeat split; auto.
  - destruct (never_vetoes_timeout cfg e
                (default 0 (numRetries (this m)) + 1)
                (process_hrtime (clock m) (asyncRequestTimer m)) Hveto)
      as [t Ht].
    assert (Hlt : default 0 (numRetries (this m)) < numMaxRetries cfg)
      by lia.
    destruct (step_await_retry _ _ _ _ _ w _ _ Hinv Hq Hre Hjwt He Hlt Ht)
      as (m' & Hs & Hq' & Hn').
    pose proof (invariant_step _ _ _ _ _ _ _ _ Hinv Hs) as Hinv'.
    destruct (step_execute _ _ _ _ _ w Hinv' Hq')
      as (m2 & req & sent & Hs2 & Hq2 & Hn2 & _).
    pose proof (invariant_step _ _ _ _ _ _ _ _ Hinv' Hs2) as Hinv2.
    rewrite (loop_step _ _ _ _ _ _ Hs), (loop_step _ _ _ _ _ _ Hs2).
    destruct (IH m2 w fuel Hinv2 Hq2)
      as (mf & tr & last & e' & -> & ? & ? & ? & Hcb & Hax & Hto); auto.
    { rewrite Hn2, Hn'. cbn. lia. }
    { cbn in Hlen. lia. }
    { lia. }
    exists mf; eexists; exists last, e'.
    split; [reflexivity|]. repeat split; auto.
    all: rewrite !those_cons, !length_app, ?Hax, ?Hto; reflexivity.
Qed.

(** C3: a callback-mode operation on a retryable request whose attempts
    all fail makes the configured number of retries, and on the failure
    that follows it is finalized: the callback is called exactly once, with
    the last error marked [maxRetriesExceeded: true], no timer is set for
    another attempt and nothing is left to run.  The attempts are the
    first [numMaxRetries + 1] answers; what the network would answer after
    them is never asked. *)
Theorem retries_exhausted_finalizes cfg h cb world :
  isRequestRetryable (request cfg) = true ->
  isJWT (request cfg) = false ->
  never_vetoes cfg ->
  Forall (fun o => failing o = true)
    (take (S (Z.to_nat (numMaxRetries cfg))) world) ->
  (Z.to_nat (numMaxRetries cfg) < length world)%nat ->
  exists m tr last e,
    operation' cfg h (Some cb) world
    = (m, drop (S (Z.to_nat (numMaxRetries cfg))) world, tr)
    /\ queue m = []
    /\ world !! Z.to_nat (numMaxRetries cfg) = Some last
    /\ failure' (Some (axiosRequest' (request cfg) None)) last = Some e
    /\ those is_callback tr
        = [EvCallback cb (Some (mark_maxRetriesExceeded e)) None]
    /\ maxRetriesExceeded (mark_maxRetriesExceeded e) = Some true
    /\ length (those is_axios tr) = S (Z.to_nat (numMaxRetries cfg))
    /\ length (those is_setTimeout tr) = Z.to_nat (numMaxRetries cfg).
Proof.
  intros Hre Hjwt Hveto Hfail Hlen. unfold operation, enough.
  pose proof (invariant_start cfg h cb) as Hinv.
  destruct (step_execute _ _ _ _ _ world Hinv eq_refl)
    as (m1 & req & sent & Hs & Hq & Hn & _).
  pose proof (invariant_step _ _ _ _ _ _ _ _ Hinv Hs) as Hinv1.
  replace (2 * length world + 3)%nat with (S (2 * length world + 2)) by lia.
  rewrite (loop_step _ _ _ _ _ _ Hs).
  destruct (await_exhausts cfg h cb (Z.to_nat (numMaxRetries cfg))
              Hre Hjwt Hveto m1 world (2 * length world + 2) Hinv1 Hq)
    as (mf & tr & last & e & -> & ? & ? & ? & Hcb & Hax & Hto); auto.
  { rewrite Hn. cbn. f_equal. lia. }
  { lia. }
  exists mf; eexists; exists last, e.
  split; [reflexivity|]. repeat split; auto.
  all: rewrite !those_cons, !length_app, ?Hax, ?Hto; reflexivity.
Qed.


(** A request that is not eligible for retry gets one attempt: its failure
    is handed to [_finish] in the job that sees it. *)
Lemma not_retried_operation cfg h cb o world :
  isRequestRetryable (request cfg) && negb (isJWT (request cfg)) = false ->
  failing o = true ->
  exists m sent e,
    operation' cfg h (Some cb) (o :: world)
    = (m, world,
       [ [EvAxios (axiosRequest' (request cfg) None) sent];
         [EvEmit (Some e) None; EvNextTick];
         [EvCallback cb (Some e) None] ])
    /\ failure' (Some (axiosRequest' (request cfg) None)) o = Some e
    /\ queue m = []
    /\ numRetries (this m) = None.
Proof.
  intros Hnot Ho. unfold operation, enough.
  pose proof (invariant_start cfg h cb) as Hinv.
  destruct (step_execute _ _ _ _ _ (o :: world) Hinv eq_refl)
    as (m1 & req & sent & Hs & Hq & Hn & -> & _).
  pose proof (invariant_step _ _ _ _ _ _ _ _ Hinv Hs) as Hinv1.
  destruct (failing_failure (Some (axiosRequest' (request cfg) None)) o Ho)
    as [e He].
  destruct (step_await_not_retried _ _ _ _ _ world _ Hinv1 Hq Hnot He)
    as (m2 & Hs2 & Hq2 & Hn2).
  destruct (step_tick m2 cb _ None world Hq2) as (m3 & Hs3 & Hq3 & Hthis & _).
  replace (2 * length (o :: world) + 3)%nat
    with (S (S (S (2 * length (o :: world))))) by lia.
  rewrite (loop_step _ _ _ _ _ _ Hs), (loop_step _ _ _ _ _ _ Hs2),
    (loop_step _ _ _ _ _ _ Hs3), (loop_done _ _ _ Hq3).
  exists m3, sent, e. repeat split; auto.
  rewrite Hthis, Hn2, Hn. reflexivity.
Qed.

(** C5: a request whose options carry a [formData] body is never retried.
    Whatever failure its attempt meets, a transport error or a response
    classified temporary, the error goes to the callback after that one
    attempt; no timer is set and the retry count stays unset.  (Any object
    is truthy, which is all [isRequestRetryable] asks of [formData].) *)
Theorem formData_request_never_retried cfg h cb o world :
  truthy (formData (request cfg)) = true ->
  failing o = true ->
  exists m sent e,
    operation' cfg h (Some cb) (o :: world)
    = (m, world,
       [ [EvAxios (axiosRequest' (request cfg) None) sent];
         [EvEmit (Some e) None; EvNextTick];
         [EvCallback cb (Some e) None] ])
    /\ failure' (Some (axiosRequest' (request cfg) None)) o = Some e
    /\ queue m = []
    /\ numRetries (this m) = None.
Proof.
  intros Hform Ho. apply not_retried_operation; [|assumption].
  unfold isRequestRetryable. rewrite Hform. reflexivity.
Qed.

(** C6: a request whose form has [grant_type] equal to the JWT bearer
    grant is never retried.  Whatever failure its attempt meets, the error
    goes to the callback after that one attempt; no timer is set and the
    retry count stays unset. *)
Theorem jwt_grant_never_retried cfg h cb o world f :
  form (request cfg) = Some f ->
  f !! "grant_type" = Some (VStr JWT_BEARER) ->
  failing o = true ->
  exists m sent e,
    operation' cfg h (Some cb) (o :: world)
    = (m, world,
       [ [EvAxios (axiosRequest' (request cfg) None) sent];
         [EvEmit (Some e) None; EvNextTick];
         [EvCallback cb (Some e) None] ])
    /\ failure' (Some (axiosRequest' (request cfg) None)) o = Some e
    /\ queue m = []
    /\ numRetries (this m) = None.
Proof.
  intros Hform Hgrant Ho. apply not_retried_operation; [|assumption].
  assert (isJWT (request cfg) = true) as ->.
  { unfold isJWT, hasOwnProperty, get. rewrite Hform, Hgrant. cbn.
    reflexivity. }
  apply andb_false_r.
Qed.

(** C7: with a custom retry strategy, on a retryable failure with attempts
    remaining, an answer that is not a number ends the operation at once:
    no timer is set, and the callback gets the strategy's Error when it
    answered with one, the original error otherwise. *)
Theorem strategy_veto_finalizes cfg h cb m o world fuel e strategy :
  reachable' cfg h (Some cb) m ->
  queue m = [TAwait true] ->
  isRequestRetryable (request cfg) = true ->
  isJWT (request cfg) = false ->
  failure' (Some (axiosRequest' (request cfg) None)) o = Some e ->
  default 0 (numRetries (this m)) < numMaxRetries cfg ->
  retryStrategy cfg = Some strategy ->
  (forall t,
     strategy (retryOptions e (default 0 (numRetries (this m)) + 1) cfg
                 (process_hrtime (clock m) (asyncRequestTimer m)))
     <> Ret (VNum t)) ->
  exists m',
    loop' (S (S fuel)) (o :: world) m
    = (m', world,
       [ [EvEmit (Some e) None; EvNextTick];
         [EvCallback cb
            (Some match strategy
                         (retryOptions e
                            (default 0 (numRetries (this m)) + 1) cfg
                            (process_hrtime (clock m) (asyncRequestTimer m)))
                  with
                  | RetError e' => e'
                  | Ret _ => e
                  end)
            None] ])
    /\ queue m' = [].
Proof.
  intros Hreach Hq Hre Hjwt He Hlt Hs Hnum.
  pose proof (reachable_invariant _ _ _ _ Hreach) as Hinv.
  destruct (step_await_vetoed _ _ _ _ _ world _ _ Hinv Hq Hre Hjwt He Hlt Hs)
    as (m1 & Hs1 & Hq1).
  { unfold retryTimeout_of. rewrite Hs.
    destruct (strategy _) as [[| | |t| |]|] eqn:Hans; try reflexivity.
    exfalso. exact (Hnum t eq_refl). }
  destruct (step_tick m1 cb _ None world Hq1) as (m2 & Hs2 & Hq2 & _).
  rewrite (loop_step _ _ _ _ _ _ Hs1), (loop_step _ _ _ _ _ _ Hs2),
    (loop_done _ _ _ Hq2).
  exists m2. split; [reflexivity | assumption].
Qed.

(** C8: with no custom retry strategy, on a retryable failure with
    attempts remaining, the timer for the next attempt is set to the
    [retry-after] header of the error's response times 1000 when the
    response has that header, and to the exponential backoff only when it
    has not. *)
Theorem retry_after_sets_the_delay cfg h cb m o world e :
  reachable' cfg h (Some cb) m ->
  queue m = [TAwait true] ->
  isRequestRetryable (request cfg) = true ->
  isJWT (request cfg) = false ->
  failure' (Some (axiosRequest' (request cfg) None)) o = Some e ->
  default 0 (numRetries (this m)) < numMaxRetries cfg ->
  retryStrategy cfg = None ->
  exists m' retryTimeout,
    step' (o :: world) m
    = Some (m', world, [EvEmit (Some e) None; EvSetTimeout retryTimeout])
    /\ queue m' = [TExecute None]
    /\ (forall r hs v,
          err_response e = Some r -> resp_headers r = Some hs ->
          hs !! "retry-after" = Some v ->
          retryTimeout = num_mul (StringToNumber v) (Num 1000))
    /\ (retry_after e = None ->
        retryTimeout
        = getRetryTimeout (default 0 (numRetries (this m)) + 1)
            (retryIntervalMS cfg)).
Proof.
  intros Hreach Hq Hre Hjwt He Hlt Hs.
  pose proof (reachable_invariant _ _ _ _ Hreach) as Hinv.
  destruct (never_vetoes_timeout cfg e (default 0 (numRetries (this m)) + 1)
              (process_hrtime (clock m) (asyncRequestTimer m)))
    as [t Ht].
  { intros s opts Hs'. congruence. }
  destruct (step_await_retry _ _ _ _ _ world _ _ Hinv Hq Hre Hjwt He Hlt Ht)
    as (m1 & Hs1 & Hq1 & _).
  exists m1, t. repeat split; auto.
  - intros r hs v Hr Hhs Hv. unfold retryTimeout_of, retry_after in Ht.
    rewrite Hs, Hr, Hhs, Hv in Ht. congruence.
  - intros Hnone. unfold retryTimeout_of in Ht.
    rewrite Hs, Hnone in Ht. congruence.
Qed.


(** ** The retry count *)

Lemma step_count cfg h cb m world m' world' evs :
  invariant' cfg h cb m ->
  step' world m = Some (m', world', evs) ->
  default 0 (numRetries (this m')) = default 0 (numRetries (this m))
  \/ (default 0 (numRetries (this m)) < numMaxRetries cfg
      /\ numRetries (this m')
         = Some (default 0 (numRetries (this m)) + 1)).
Proof.
  intros [Hc Hh Hr Hn Hp] Hs.
  destruct_machine m. subst.
  unfold step in Hs. cbn in Hs.
  destruct Hp as [c Hq Hc | Hq Hcb Hreq | e r Hq | Hq]; cbn in *; subst.
  - unfold execute in Hs; cbn in Hs.
    destruct Hc as [-> | [-> ->]]; cbn in Hs;
      repeat case_match; simplify_eq; cbn; auto.
  - destruct world as [|o w]; [discriminate|].
    unfold resume, _handleResponse, _retry, _finish in Hs. cbn in Hs.
    repeat case_match; simplify_eq; cbn; ltb_to_prop; auto.
  - simplify_eq. cbn. auto.
  - discriminate.
Qed.




(** With a negative maximum the count is set to 0 by the first failure and
    stays there. *)
Lemma numRetries_bounded_by_max0 cfg h cb m n :
  reachable' cfg h (Some cb) m ->
  numRetries (this m) = Some n ->
  0 <= n <= Z.max 0 (numMaxRetries cfg).
Proof.
  intros Hreach.
  apply (inv_count _ _ _ _ _ (reachable_invariant _ _ _ _ Hreach)).
Qed.

(** ** Transport errors *)

Lemma step_await_rejected cfg h cb m e0 world :
  invariant' cfg h cb m ->
  queue m = [TAwait true] ->
  exists m1 evs,
    step' (Rejected e0 :: world) m = Some (m1, world, evs)
    /\ List.filter is_callback evs = []
    /\ (queue m1 = [TExecute None]
        \/ exists d,
            queue m1 = [TTick (Some cb) (Some d) None]
            /\ ((exists strategy opts,
                    retryStrategy cfg = Some strategy
                    /\ strategy opts = RetError d)
                \/ (err_request d = Some (axiosRequest' (request cfg) None)
                    /\ err_response d = err_response e0
                    /\ err_status d = err_status e0
                    /\ message d = message e0))).
Proof.
  intros [Hc Hh Hr Hn Hp] Hq.
  destruct_machine m. subst.
  destruct Hp as [c' Hq Hc | Hq Hcb Hreq | e' r' Hq | Hq]; cbn in *;
    simplify_eq.
  unfold step, resume, _handleResponse, _retry, _finish; cbn.
  repeat case_match; simplify_eq; cbn.
  all: do 2 eexists; split; [reflexivity|]; cbn; split; [reflexivity|].
  all: try (left; reflexivity).
  all: right; eexists; split; [reflexivity|]; cbn; eauto 10.
Qed.

(** C10 (amended): when an attempt ends in a transport error, what the
    callback gets from the job that handles it is either the Error a custom
    retry strategy answered with, or the transport error itself with the
    request attached and with the [response] and [status] fields it came
    with: the handler adds neither, they are attached only when there is a
    response. *)
Theorem transport_error_delivery cfg h cb m e0 world m' world' tr c d r :
  reachable' cfg h (Some cb) m ->
  queue m = [TAwait true] ->
  loop' 2 (Rejected e0 :: world) m = (m', world', tr) ->
  In (EvCallback c (Some d) r) (concat tr) ->
  (exists strategy opts,
      retryStrategy cfg = Some strategy /\ strategy opts = RetError d)
  \/ (err_request d = Some (axiosRequest' (request cfg) None)
      /\ err_response d = err_response e0
      /\ err_status d = err_status e0
      /\ message d = message e0).
Proof.
  intros Hreach Hq Hl Hin.
  pose proof (reachable_invariant _ _ _ _ Hreach) as Hinv.
  destruct (step_await_rejected _ _ _ _ e0 world Hinv Hq)
    as (m1 & evs & Hs1 & Hcb1 & Hnext).
  pose proof (invariant_step _ _ _ _ _ _ _ _ Hinv Hs1) as Hinv1.
  rewrite (loop_step _ _ _ _ _ _ Hs1) in Hl.
  assert (Hevs : ~ In (EvCallback c (Some d) r) evs).
  { intros Hev.
    assert (Hf : In (EvCallback c (Some d) r) (List.filter is_callback evs))
      by (apply List.filter_In; auto).
    rewrite Hcb1 in Hf. destruct Hf. }
  destruct Hnext as [Hq1 | (d' & Hq1 & Hd)].
  - destruct (step_execute _ _ _ _ _ world Hinv1 Hq1)
      as (m2 & req & sent & Hs2 & _).
    rewrite (loop_step _ _ _ _ _ _ Hs2) in Hl. cbn in Hl. simplify_eq.
    cbn in Hin. rewrite ?app_nil_r in Hin.
    apply in_app_or in Hin as [Hin | [Hin | []]]; [tauto | discriminate].
  - destruct (step_tick m1 cb (Some d') None world Hq1) as (m2 & Hs2 & _).
    rewrite (loop_step _ _ _ _ _ _ Hs2) in Hl. cbn in Hl. simplify_eq.
    cbn in Hin. rewrite ?app_nil_r in Hin.
    apply in_app_or in Hin as [Hin | [Hin | []]]; [tauto|].
    simplify_eq. exact Hd.
Qed.


(** ** The headers *)

(** No job writes to the headers object: what axios reads at each attempt
    is what the options held when the operation began. *)
Lemma live_headers_never_written cfg h cb m :
  reachable' cfg h (Some cb) m -> heap m = h.
Proof.
  intros Hreach.
  apply (inv_heap _ _ _ _ _ (reachable_invariant _ _ _ _ Hreach)).
Qed.

Lemma axios_reads_live_headers cfg h cb m world m' world' evs req sent :
  reachable' cfg h (Some cb) m ->
  step' world m = Some (m', world', evs) ->
  In (EvAxios req sent) evs ->
  req_headers req = headers (request cfg)
  /\ sent = match headers (request cfg) with
            | Some l => h !! l
            | None => None
            end.
Proof.
  intros Hreach Hs Hin.
  pose proof (reachable_invariant _ _ _ _ Hreach) as Hinv.
  destruct (inv_phase _ _ _ _ _ Hinv) as [c Hq Hc | Hq Hcb Hreq | e r Hq | Hq].
  - destruct (step_execute _ _ _ _ _ world Hinv Hq)
      as (m2 & req2 & sent2 & Hs2 & _ & _ & -> & ->).
    rewrite Hs in Hs2. simplify_eq.
    destruct Hin as [Hin | []]. simplify_eq. auto.
  - destruct world as [|o w]; [unfold step in Hs; rewrite Hq in Hs; done|].
    destruct (step_await _ _ _ _ o w Hinv Hq)
      as (m2 & evs2 & Hs2 & _
          & [ (? & ? & _ & _ & _ & Hax)
            | (_ & _ & _ & _ & _ & _ & _ & Hax & _) ]).
    all: rewrite Hs in Hs2; simplify_eq.
    all: assert (Hf : In (EvAxios req sent) (List.filter is_axios evs2))
           by (apply List.filter_In; auto).
    all: rewrite Hax in Hf; destruct Hf.
  - destruct (step_tick m cb e r world Hq) as (m2 & Hs2 & _).
    rewrite Hs in Hs2. simplify_eq.
    destruct e; cbn in Hin; destruct Hin as [Hin | []]; discriminate.
  - rewrite step_done in Hs; done.
Qed.

(** ** Stream mode and the first call *)

(** X1: without a callback the operation is one attempt.  The request is
    the same but for [responseType: 'stream']; the outcome is emitted as it
    is, response or error, whatever the status; nothing is retried, counted
    or delivered, the timer is left alone, and [getResponseStream] gives
    the response when axios resolved. *)
Theorem stream_mode_is_one_attempt cfg h o world :
  exists m sent,
    operation' cfg h None (o :: world)
    = (m, world,
       [ [EvAxios (axiosRequest' (request cfg) (Some "stream")) sent];
         [stream_event o] ])
    /\ queue m = []
    /\ numRetries (this m) = None
    /\ asyncRequestTimer m = timer
    /\ getResponseStream (this m)
       = match o with Resolved r => Some r | Rejected _ => None end.
Proof.
  unfold operation, enough.
  replace (2 * length (o :: world) + 3)%nat
    with (S (S (S (2 * length (o :: world))))) by lia.
  destruct o as [r|e]; do 2 eexists; (split; [reflexivity|]); cbn; auto.
Qed.

(** X2: [execute] gives the request to axios and returns: until the
    network answers, no event is emitted, nothing is delivered, and
    [getResponseStream] is undefined.  In callback mode the callback is
    stored and the timer is started unless it was already. *)
Theorem execute_only_sends cfg h callback :
  exists m req sent,
    operation' cfg h callback [] = (m, [], [[EvAxios req sent]])
    /\ queue m = [TAwait (bool_decide (is_Some callback))]
    /\ this_request (this m) = Some req
    /\ getResponseStream (this m) = None
    /\ _callback (this m) = callback
    /\ asyncRequestTimer m
       = match callback, timer with
         | Some _, None => Some (process_hrtime 0%nat None)
         | _, _ => timer
         end.
Proof.
  unfold operation, enough. cbn [length Nat.mul Nat.add].
  destruct callback as [cb|]; destruct timer as [t|];
    do 3 eexists; (split; [reflexivity|]); cbn; auto.
Qed.

(** ** Success *)

Lemma step_await_success cfg h cb m r world :
  invariant' cfg h cb m ->
  queue m = [TAwait true] ->
  isTemporaryError r = false ->
  exists m',
    step' (Resolved r :: world) m
    = Some (m', world, [EvEmit None (Some r); EvNextTick])
    /\ queue m' = [TTick (Some cb) None (Some r)]
    /\ numRetries (this m') = numRetries (this m)
    /\ this_response (this m') = Some r.
Proof.
  intros [Hc Hh Hr Hn Hp] Hq Htemp.
  destruct_machine m. subst.
  destruct Hp as [c' Hq Hc | Hq Hcb Hreq | e' r' Hq | Hq]; cbn in *;
    simplify_eq.
  unfold step, resume, _handleResponse, _finish; cbn.
  rewrite Htemp. cbn. eauto.
Qed.

(** X3: a response that is not classified temporary, a 404 or a 507 as
    much as a 200, is a success for the request: it goes to the callback
    as [(null, response)] after one attempt, with no retry, whether or not
    the request is eligible for one. *)
Theorem non_temporary_response_is_delivered cfg h cb r world :
  isTemporaryError r = false ->
  exists m sent,
    operation' cfg h (Some cb) (Resolved r :: world)
    = (m, world,
       [ [EvAxios (axiosRequest' (request cfg) None) sent];
         [EvEmit None (Some r); EvNextTick];
         [EvCallback cb None (Some r)] ])
    /\ queue m = []
    /\ numRetries (this m) = None
    /\ getResponseStream (this m) = Some r.
Proof.
  intros Htemp. unfold operation, enough.
  pose proof (invariant_start cfg h cb) as Hinv.
  destruct (step_execute _ _ _ _ _ (Resolved r :: world) Hinv eq_refl)
    as (m1 & req & sent & Hs & Hq & Hn & -> & _).
  pose proof (invariant_step _ _ _ _ _ _ _ _ Hinv Hs) as Hinv1.
  destruct (step_await_success _ _ _ _ _ world Hinv1 Hq Htemp)
    as (m2 & Hs2 & Hq2 & Hn2 & Hr2).
  destruct (step_tick m2 cb None (Some r) world Hq2)
    as (m3 & Hs3 & Hq3 & Hthis & _).
  replace (2 * length (Resolved r :: world) + 3)%nat
    with (S (S (S (2 * length (Resolved r :: world))))) by lia.
  rewrite (loop_step _ _ _ _ _ _ Hs), (loop_step _ _ _ _ _ _ Hs2),
    (loop_step _ _ _ _ _ _ Hs3), (loop_done _ _ _ Hq3).
  exists m3, sent. unfold getResponseStream.
  rewrite Hthis, Hn2, Hn, Hr2. auto.
Qed.

(** From an attempt in flight: failures that are retried, then a
    response that is not temporary. *)
Lemma await_recovers cfg h cb r rest :
  isRequestRetryable (request cfg) = true ->
  isJWT (request cfg) = false ->
  never_vetoes cfg ->
  isTemporaryError r = false ->
  forall fails m fuel,
    invariant' cfg h cb m ->
    queue m = [TAwait true] ->
    Forall (fun o => failing o = true) fails ->
    default 0 (numRetries (this m)) + Z.of_nat (length fails)
    <= numMaxRetries cfg ->
    (2 * length fails + 2 <= fuel)%nat ->
    exists mf tr,
      loop' fuel (fails ++ Resolved r :: rest) m = (mf, rest, tr)
      /\ queue mf = []
      /\ those is_callback tr = [EvCallback cb None (Some r)]
      /\ length (those is_axios tr) = length fails
      /\ length (those is_setTimeout tr) = length fails
      /\ default 0 (numRetries (this mf))
         = default 0 (numRetries (this m)) + Z.of_nat (length fails).
Proof.
  intros Hre Hjwt Hveto Htemp.
  induction fails as [|o fails IH]; intros m fuel Hinv Hq Hfail Hmax Hfuel.
  all: destruct fuel as [|[|fuel]]; [cbn in Hfuel; lia|cbn in Hfuel; lia|].
  - cbn [app].
    destruct (step_await_success _ _ _ _ _ rest Hinv Hq Htemp)
      as (m1 & Hs1 & Hq1 & Hn1 & _).
    destruct (step_tick m1 cb None (Some r) rest Hq1)
      as (m2 & Hs2 & Hq2 & Hthis & _).
    rewrite (loop_step _ _ _ _ _ _ Hs1), (loop_step _ _ _ _ _ _ Hs2),
      (loop_done _ _ _ Hq2).
    exists m2. eexists. split; [reflexivity|].
    rewrite Hthis, Hn1. cbn. repeat split; auto. lia.
  - apply Forall_cons in Hfail as [Ho Hfail]. cbn [app length] in *.
    destruct (failing_failure (Some (axiosRequest' (request cfg) None)) o Ho)
      as [e He].
    destruct (never_vetoes_timeout cfg e
                (default 0 (numRetries (this m)) + 1)
                (process_hrtime (clock m) (asyncRequestTimer m)) Hveto)
      as [t Ht].
    assert (Hlt : default 0 (numRetries (this m)) < numMaxRetries cfg)
      by lia.
    destruct (step_await_retry _ _ _ _ _ (fails ++ Resolved r :: rest)%list
                _ _ Hinv Hq Hre Hjwt He Hlt Ht)
      as (m1 & Hs1 & Hq1 & Hn1).
    pose proof (invariant_step _ _ _ _ _ _ _ _ Hinv Hs1) as Hinv1.
    destruct (step_execute _ _ _ _ _ (fails ++ Resolved r :: rest)%list
                Hinv1 Hq1)
      as (m2 & req & sent & Hs2 & Hq2 & Hn2 & _).
    pose proof (invariant_step _ _ _ _ _ _ _ _ Hinv1 Hs2) as Hinv2.
    rewrite (loop_step _ _ _ _ _ _ Hs1), (loop_step _ _ _ _ _ _ Hs2).
    destruct (IH m2 fuel Hinv2 Hq2 Hfail)
      as (mf & tr & -> & ? & Hcb & Hax & Hto & Hcount).
    { rewrite Hn2, Hn1. cbn. lia. }
    { lia. }
    exists mf. eexists. split; [reflexivity|].
    rewrite Hn2, Hn1 in Hcount. cbn in Hcount.
    repeat split; auto.
    all: rewrite ?those_cons, ?length_app, ?Hax, ?Hto, ?Hcb;
      try reflexivity; lia.
Qed.

(** X4: a retryable request that fails at most [numMaxRetries] times and
    then gets a response that is not temporary succeeds: each failure costs
    one timer and one more attempt, none of them reaches the callback, and
    the callback is called once, with [(null, response)]. *)
Theorem retried_failures_then_success cfg h cb fails r rest :
  isRequestRetryable (request cfg) = true ->
  isJWT (request cfg) = false ->
  never_vetoes cfg ->
  Forall (fun o => failing o = true) fails ->
  Z.of_nat (length fails) <= numMaxRetries cfg ->
  isTemporaryError r = false ->
  exists m tr,
    operation' cfg h (Some cb) (fails ++ Resolved r :: rest) = (m, rest, tr)
    /\ queue m = []
    /\ those is_callback tr = [EvCallback cb None (Some r)]
    /\ length (those is_axios tr) = S (length fails)
    /\ length (those is_setTimeout tr) = length fails
    /\ default 0 (numRetries (this m)) = Z.of_nat (length fails).
Proof.
  intros Hre Hjwt Hveto Hfail Hmax Htemp. unfold operation, enough.
  pose proof (invariant_start cfg h cb) as Hinv.
  destruct (step_execute _ _ _ _ _ (fails ++ Resolved r :: rest)%list
              Hinv eq_refl)
    as (m1 & req & sent & Hs & Hq & Hn & _).
  pose proof (invariant_step _ _ _ _ _ _ _ _ Hinv Hs) as Hinv1.
  rewrite length_app. cbn [length].
  replace (2 * (length fails + S (length rest)) + 3)%nat
    with (S (2 * (length fails + S (length rest)) + 2)) by lia.
  rewrite (loop_step _ _ _ _ _ _ Hs).
  destruct (await_recovers cfg h cb r rest Hre Hjwt Hveto Htemp fails m1
              (2 * (length fails + S (length rest)) + 2) Hinv1 Hq Hfail)
    as (mf & tr & -> & ? & Hcb & Hax & Hto & Hcount).
  { rewrite Hn. cbn. lia. }
  { lia. }
  exists mf. eexists. split; [reflexivity|].
  rewrite Hn in Hcount. cbn in Hcount.
  repeat split; auto.
  all: rewrite ?those_cons, ?length_app, ?Hax, ?Hto, ?Hcb;
    try reflexivity; lia.
Qed.

(** ** Every attempt *)

Lemma step_await_emit cfg h cb m o world :
  invariant' cfg h cb m ->
  queue m = [TAwait true] ->
  exists m' evs,
    step' (o :: world) m = Some (m', world, evs)
    /\ List.filter is_emit evs
       = [response_event statusLine
            (Some (axiosRequest' (request cfg) None)) o].
Proof.
  intros [Hc Hh Hr Hn Hp] Hq.
  destruct_machine m. subst.
  destruct Hp as [c' Hq Hc | Hq Hcb Hreq | e r Hq | Hq]; cbn in *;
    simplify_eq.
  unfold step, resume, _handleResponse, _retry, _finish, response_event;
    cbn.
  destruct o as [r|e]; cbn.
  all: repeat case_match; simplify_eq; cbn.
  all: do 2 eexists; split; reflexivity.
Qed.

Lemma step_axios cfg h cb m world m' world' evs :
  invariant' cfg h cb m ->
  step' world m = Some (m', world', evs) ->
  Forall (fun ev =>
            ev = EvAxios (axiosRequest' (request cfg) None)
                   match headers (request cfg) with
                   | Some l => h !! l
                   | None => None
                   end)
    (List.filter is_axios evs).
Proof.
  intros Hinv Hs.
  destruct (inv_phase _ _ _ _ _ Hinv) as [c Hq Hc | Hq Hcb Hreq | e r Hq | Hq].
  - destruct (step_execute _ _ _ _ _ world Hinv Hq)
      as (m2 & req2 & sent2 & Hs2 & _ & _ & -> & ->).
    rewrite Hs in Hs2. simplify_eq. cbn. repeat constructor.
  - destruct world as [|o w]; [unfold step in Hs; rewrite Hq in Hs; done|].
    destruct (step_await _ _ _ _ o w Hinv Hq)
      as (m2 & evs2 & Hs2 & _
          & [ (? & ? & _ & _ & _ & Hax)
            | (_ & _ & _ & _ & _ & _ & _ & Hax & _) ]).
    all: rewrite Hs in Hs2; simplify_eq; rewrite Hax; constructor.
  - destruct (step_tick m cb e r world Hq) as (m2 & Hs2 & _).
    rewrite Hs in Hs2. simplify_eq. destruct e; cbn; constructor.
  - rewrite step_done in Hs; done.
Qed.

Lemma loop_axios cfg h cb fuel :
  forall m world,
    invariant' cfg h cb m ->
    Forall (fun ev =>
              ev = EvAxios (axiosRequest' (request cfg) None)
                     match headers (request cfg) with
                     | Some l => h !! l
                     | None => None
                     end)
      (those is_axios (loop' fuel world m).2).
Proof.
  induction fuel as [|fuel IH]; intros m world Hinv; [constructor|].
  destruct (step' world m) as [[[m' w'] evs]|] eqn:Hs.
  2: { cbn. rewrite Hs. constructor. }
  rewrite (loop_step _ _ _ _ _ _ Hs).
  pose proof (invariant_step _ _ _ _ _ _ _ _ Hinv Hs) as Hinv'.
  specialize (IH m' w' Hinv').
  destruct (loop' fuel w' m') as [[mf wf] tr]. cbn -[those] in *.
  rewrite those_cons. apply Forall_app. split; [|assumption].
  exact (step_axios _ _ _ _ _ _ _ _ Hinv Hs).
Qed.

(** X5: every attempt of a callback-mode operation, the first and each
    retry, gives axios the same request, built from the options (the url
    with its query, the method, the options' own headers object, the body or
    else the serialised form, no redirects), and axios reads the headers as
    they were when the operation began. *)
Theorem every_attempt_sends_the_same_request cfg h cb world :
  Forall (fun ev =>
            ev = EvAxios (axiosRequest' (request cfg) None)
                   match headers (request cfg) with
                   | Some l => h !! l
                   | None => None
                   end)
    (those is_axios (operation' cfg h (Some cb) world).2).
Proof. apply (loop_axios cfg h cb), invariant_start. Qed.

Lemma loop_emits cfg h cb fuel :
  forall m world,
    invariant' cfg h cb m ->
    let '(mf, unused, tr) := loop' fuel world m in
    exists answered,
      world = (answered ++ unused)%list
      /\ those is_emit tr
         = map (response_event statusLine
                  (Some (axiosRequest' (request cfg) None))) answered.
Proof.
  induction fuel as [|fuel IH]; intros m world Hinv.
  { cbn. exists []. auto. }
  destruct (step' world m) as [[[m' w'] evs]|] eqn:Hs.
  2: { cbn. rewrite Hs. exists []. auto. }
  rewrite (loop_step _ _ _ _ _ _ Hs).
  pose proof (invariant_step _ _ _ _ _ _ _ _ Hinv Hs) as Hinv'.
  specialize (IH m' w' Hinv').
  destruct (loop' fuel w' m') as [[mf wf] tr].
  destruct IH as (answered & -> & Hem).
  rewrite those_cons, Hem.
  destruct (inv_phase _ _ _ _ _ Hinv) as [c Hq Hc | Hq Hcb Hreq | e r Hq | Hq].
  - destruct (step_execute _ _ _ _ _ world Hinv Hq)
      as (m2 & req2 & sent2 & Hs2 & _).
    rewrite Hs in Hs2. simplify_eq. exists answered. auto.
  - destruct world as [|o w]; [unfold step in Hs; rewrite Hq in Hs; done|].
    destruct (step_await_emit _ _ _ _ o w Hinv Hq) as (m2 & evs2 & Hs2 & Hev).
    rewrite Hs in Hs2. simplify_eq. rewrite Hev.
    exists (o :: answered). auto.
  - destruct (step_tick m cb e r world Hq) as (m2 & Hs2 & _).
    rewrite Hs in Hs2. simplify_eq.
    destruct (run_tick_callback cb e r) as (e' & r' & ->).
    exists answered. auto.
  - rewrite step_done in Hs; done.
Qed.

(** X6: in callback mode one [response] event is emitted for each attempt
    the network has answered, in order, retried or not: the error with the
    request (and the response, if any) attached when the attempt failed,
    the response when it did not.  Nothing else is emitted. *)
Theorem one_response_event_per_attempt cfg h cb world :
  let '(m, unused, tr) := operation' cfg h (Some cb) world in
  exists answered,
    world = (answered ++ unused)%list
    /\ those is_emit tr
       = map (response_event statusLine
                (Some (axiosRequest' (request cfg) None))) answered.
Proof. apply (loop_emits cfg h cb), invariant_start. Qed.

(** What is left of the retry budget. *)
Lemma loop_bounded cfg h cb fuel :
  forall m world,
    invariant' cfg h cb m ->
    let left :=
      Z.to_nat (numMaxRetries cfg - default 0 (numRetries (this m))) in
    let tr := (loop' fuel world m).2 in
    (length (those is_setTimeout tr) <= left)%nat
    /\ (length (those is_axios tr)
        <= left + match queue m with [TExecute _] => 1 | _ => 0 end)%nat.
Proof.
  induction fuel as [|fuel IH]; intros m world Hinv; [cbn; lia|].
  destruct (step' world m) as [[[m' w'] evs]|] eqn:Hs.
  2: { cbn. rewrite Hs. cbn. lia. }
  cbv zeta. rewrite (loop_step _ _ _ _ _ _ Hs).
  pose proof (invariant_step _ _ _ _ _ _ _ _ Hinv Hs) as Hinv'.
  pose proof (step_count _ _ _ _ _ _ _ _ Hinv Hs) as Hcount.
  specialize (IH m' w' Hinv'). cbv zeta in IH.
  destruct (loop' fuel w' m') as [[mf wf] tr] eqn:Hl. cbn -[those] in *.
  rewrite !those_cons, !length_app.
  destruct (inv_phase _ _ _ _ _ Hinv) as [c Hq Hc | Hq Hcb Hreq | e r Hq | Hq].
  - destruct (step_execute _ _ _ _ _ world Hinv Hq)
      as (m2 & req2 & sent2 & Hs2 & Hq2 & Hn2 & _).
    rewrite Hs in Hs2. simplify_eq. rewrite Hq. rewrite Hq2, Hn2 in IH.
    cbn. lia.
  - destruct world as [|o w]; [unfold step in Hs; rewrite Hq in Hs; done|].
    destruct (step_await _ _ _ _ o w Hinv Hq)
      as (m2 & evs2 & Hs2 & _
          & [ (e & r & Hq2 & _ & Hto & Hax)
            | (Hq2 & _ & _ & _ & Hlt & Hn2 & _ & Hax & t & Hto) ]).
    all: rewrite Hs in Hs2; simplify_eq; rewrite Hq, Hto, Hax;
      rewrite Hq2 in IH; cbn [length].
    + destruct Hcount as [Heq | [Hlt Hn2]].
      * rewrite Heq in IH. lia.
      * rewrite Hn2 in IH. cbn in IH. lia.
    + rewrite Hn2 in IH. cbn in IH. lia.
  - destruct (step_tick m cb e r world Hq) as (m2 & Hs2 & Hq2 & _).
    rewrite Hs in Hs2. simplify_eq.
    rewrite (loop_done _ _ _ Hq2) in Hl. simplify_eq.
    destruct (run_tick_callback cb e r) as (e' & r' & ->). cbn. lia.
  - rewrite step_done in Hs; done.
Qed.

(** X7: whatever the network answers and whatever the retry strategy
    says, a callback-mode operation sets at most [numMaxRetries] timers and
    makes at most [numMaxRetries + 1] attempts (one, when the maximum is
    not positive). *)
Theorem attempts_are_bounded cfg h cb world :
  let tr := (operation' cfg h (Some cb) world).2 in
  (length (those is_setTimeout tr) <= Z.to_nat (numMaxRetries cfg))%nat
  /\ (length (those is_axios tr) <= S (Z.to_nat (numMaxRetries cfg)))%nat.
Proof.
  pose proof (loop_bounded cfg h cb (enough world)
                (start timer cfg h (Some cb)) world
                (invariant_start cfg h cb)) as H.
  unfold operation. cbv zeta in *.
  remember (loop' (enough world) world (start timer cfg h (Some cb))).2
    as tr eqn:Htr.
  clear Htr. cbn in H.
  replace (numMaxRetries cfg - 0) with (numMaxRetries cfg) in H by lia.
  lia.
Qed.

(** ** The timer, the error of a response, the strategy's delay *)

(** X8: once [asyncRequestTimer] is set no job of any request sets it
    again: [execute] starts it only when it is unset, and nothing else
    writes it. *)
Theorem asyncRequestTimer_is_set_once m world m' world' evs t :
  step qs_stringify statusLine getRetryTimeout StringToNumber process_hrtime
    world m
  = Some (m', world', evs) ->
  asyncRequestTimer m = Some t ->
  asyncRequestTimer m' = Some t.
Proof.
  intros Hs Ht. destruct_machine m. subst.
  unfold step in Hs. cbn in Hs.
  destruct queue0 as [|[c|mode|c e r] q]; [discriminate| | |].
  - unfold execute in Hs. cbn in Hs.
    repeat case_match; simplify_eq; reflexivity.
  - destruct world as [|o w]; [discriminate|].
    unfold resume, _handleResponse, _retry, _finish in Hs. cbn in Hs.
    repeat case_match; simplify_eq; reflexivity.
  - simplify_eq. reflexivity.
Qed.

Lemma step_await_resolved cfg h cb m r world :
  invariant' cfg h cb m ->
  queue m = [TAwait true] ->
  exists m1 evs,
    step' (Resolved r :: world) m = Some (m1, world, evs)
    /\ List.filter is_callback evs = []
    /\ (queue m1 = [TExecute None]
        \/ queue m1 = [TTick (Some cb) None (Some r)]
        \/ exists d,
            queue m1 = [TTick (Some cb) (Some d) None]
            /\ isTemporaryError r = true
            /\ ((exists strategy opts,
                    retryStrategy cfg = Some strategy
                    /\ strategy opts = RetError d)
                \/ (err_request d = Some (axiosRequest' (request cfg) None)
                    /\ err_response d = Some r
                    /\ err_status d = Some (status r)
                    /\ message d = statusLine (status r)))).
Proof.
  intros [Hc Hh Hr Hn Hp] Hq.
  destruct_machine m. subst.
  destruct Hp as [c' Hq Hc | Hq Hcb Hreq | e' r' Hq | Hq]; cbn in *;
    simplify_eq.
  unfold step, resume, _handleResponse, _retry, _finish; cbn.
  repeat case_match; simplify_eq; cbn.
  all: do 2 eexists; split; [reflexivity|]; cbn; split; [reflexivity|].
  all: try (left; reflexivity).
  all: try (right; left; reflexivity).
  all: right; right; eexists; split; [reflexivity|]; cbn; eauto 10.
Qed.

(** X9: when the callback gets an error from the job that handles a
    response, the response was classified temporary, and the error is
    either the Error a custom retry strategy answered with, or the one made
    for the response: its message is the status line, and the request, the
    response and its status are attached. *)
Theorem response_error_delivery cfg h cb m r world m' world' tr c d r' :
  reachable' cfg h (Some cb) m ->
  queue m = [TAwait true] ->
  loop' 2 (Resolved r :: world) m = (m', world', tr) ->
  In (EvCallback c (Some d) r') (concat tr) ->
  isTemporaryError r = true
  /\ ((exists strategy opts,
         retryStrategy cfg = Some strategy /\ strategy opts = RetError d)
      \/ (err_request d = Some (axiosRequest' (request cfg) None)
          /\ err_response d = Some r
          /\ err_status d = Some (status r)
          /\ message d = statusLine (status r))).
Proof.
  intros Hreach Hq Hl Hin.
  pose proof (reachable_invariant _ _ _ _ Hreach) as Hinv.
  destruct (step_await_resolved _ _ _ _ r world Hinv Hq)
    as (m1 & evs & Hs1 & Hcb1 & Hnext).
  pose proof (invariant_step _ _ _ _ _ _ _ _ Hinv Hs1) as Hinv1.
  rewrite (loop_step _ _ _ _ _ _ Hs1) in Hl.
  assert (Hevs : ~ In (EvCallback c (Some d) r') evs).
  { intros Hev.
    assert (Hf : In (EvCallback c (Some d) r') (List.filter is_callback evs))
      by (apply List.filter_In; auto).
    rewrite Hcb1 in Hf. destruct Hf. }
  destruct Hnext as [Hq1 | [Hq1 | (d' & Hq1 & Htemp & Hd)]].
  - destruct (step_execute _ _ _ _ _ world Hinv1 Hq1)
      as (m2 & req & sent & Hs2 & _).
    rewrite (loop_step _ _ _ _ _ _ Hs2) in Hl. cbn in Hl. simplify_eq.
    cbn in Hin. rewrite ?app_nil_r in Hin.
    apply in_app_or in Hin as [Hin | [Hin | []]]; [tauto | discriminate].
  - destruct (step_tick m1 cb None (Some r) world Hq1) as (m2 & Hs2 & _).
    rewrite (loop_step _ _ _ _ _ _ Hs2) in Hl. cbn in Hl. simplify_eq.
    cbn in Hin. rewrite ?app_nil_r in Hin.
    apply in_app_or in Hin as [Hin | [Hin | []]]; [tauto | discriminate].
  - destruct (step_tick m1 cb (Some d') None world Hq1) as (m2 & Hs2 & _).
    rewrite (loop_step _ _ _ _ _ _ Hs2) in Hl. cbn in Hl. simplify_eq.
    cbn in Hin. rewrite ?app_nil_r in Hin.
    apply in_app_or in Hin as [Hin | [Hin | []]]; [tauto|].
    simplify_eq. auto.
Qed.

(** X10: a number answered by the custom retry strategy is the delay of
    the next attempt as it is, whatever [retry-after] header the response
    carries; the strategy is asked with the error, the count of this retry
    (one more than the retries made so far), the two settings and the time
    elapsed since the timer was started. *)
Theorem strategy_number_is_the_delay cfg h cb m o world e strategy t :
  reachable' cfg h (Some cb) m ->
  queue m = [TAwait true] ->
  isRequestRetryable (request cfg) = true ->
  isJWT (request cfg) = false ->
  failure' (Some (axiosRequest' (request cfg) None)) o = Some e ->
  default 0 (numRetries (this m)) < numMaxRetries cfg ->
  retryStrategy cfg = Some strategy ->
  strategy
    {| ro_error := e;
       ro_numRetryAttempts := default 0 (numRetries (this m)) + 1;
       ro_numMaxRetries := numMaxRetries cfg;
       ro_retryIntervalMS := retryIntervalMS cfg;
       ro_totalElapsedTimeMS :=
         totalElapsedTimeMS
           (process_hrtime (clock m) (asyncRequestTimer m)) |}
  = Ret (VNum t) ->
  exists m',
    step' (o :: world) m
    = Some (m', world, [EvEmit (Some e) None; EvSetTimeout t])
    /\ queue m' = [TExecute None]
    /\ numRetries (this m') = Some (default 0 (numRetries (this m)) + 1).
Proof.
  intros Hreach Hq Hre Hjwt He Hlt Hs Hans.
  pose proof (reachable_invariant _ _ _ _ Hreach) as Hinv.
  apply (step_await_retry _ _ _ _ _ world _ _ Hinv Hq Hre Hjwt He Hlt).
  unfold retryTimeout_of, retryOptions. rewrite Hs, Hans. reflexivity.
Qed.

(** X13: no job of a request writes to the heap: the headers object the
    caller put in the options, which every attempt sends and every
    delivered error refers to, is never modified by [execute],
    [_handleResponse], [_retry] or [_finish]. *)
Theorem no_job_writes_the_heap m world m' world' evs :
  step qs_stringify statusLine getRetryTimeout StringToNumber process_hrtime
    world m
  = Some (m', world', evs) ->
  heap m' = heap m.
Proof.
  intros Hs. destruct_machine m. subst.
  unfold step in Hs. cbn in Hs.
  destruct queue0 as [|[c|mode|c e r] q]; [discriminate| | |].
  - unfold execute in Hs. cbn in Hs.
    repeat case_match; simplify_eq; reflexivity.
  - destruct world as [|o w]; [discriminate|].
    unfold resume, _handleResponse, _retry, _finish in Hs. cbn in Hs.
    repeat case_match; simplify_eq; reflexivity.
  - simplify_eq. reflexivity.
Qed.

End Facts.

(** What [cleanSensitiveHeaders] does when it is called: both headers, when
    set, read as the placeholder afterwards, in the object itself. *)
Lemma cleanSensitiveHeaders_redacts req h l hd :
  req_headers req = Some l ->
  h !! l = Some hd ->
  exists hd',
    cleanSensitiveHeaders req h !! l = Some hd'
    /\ (truthy (get hd "Authorization") = true ->
        get hd' "Authorization" = VStr REMOVED_HEADER_MESSAGE)
    /\ (truthy (get hd "BoxApi") = true ->
        get hd' "BoxApi" = VStr REMOVED_HEADER_MESSAGE).
Proof.
  intros Hl Hhd. unfold cleanSensitiveHeaders. rewrite Hl, Hhd.
  eexists. split; [apply lookup_insert_eq|]. cbv zeta. unfold get.
  destruct (truthy (default VUndefined (hd !! "BoxApi"))) eqn:Hbox.
  - rewrite (lookup_insert_ne hd "BoxApi" "Authorization") by done.
    destruct (truthy (default VUndefined (hd !! "Authorization"))) eqn:Hauth.
    + split; intros _.
      * by rewrite lookup_insert_eq.
      * rewrite lookup_insert_ne by done. by rewrite lookup_insert_eq.
    + split; [discriminate|]. intros _. by rewrite lookup_insert_eq.
  - destruct (truthy (default VUndefined (hd !! "Authorization"))) eqn:Hauth.
    + split; [|discriminate]. intros _. by rewrite lookup_insert_eq.
    + split; discriminate.
Qed.

(** X11: [cleanSensitiveHeaders] writes nothing but the two headers it is
    for, and those only when they are set: every other object, every other
    header of the request's headers object, and an [Authorization] or
    [BoxApi] that is absent or falsy (the empty string) read afterwards as
    they did before.  With no headers object nothing is written at all. *)
Theorem cleanSensitiveHeaders_leaves_the_rest req h :
  (forall l', req_headers req <> Some l' ->
              cleanSensitiveHeaders req h !! l' = h !! l')
  /\ (forall l hd,
        req_headers req = Some l -> h !! l = Some hd ->
        exists hd',
          cleanSensitiveHeaders req h !! l = Some hd'
          /\ forall k,
               (k <> "Authorization" /\ k <> "BoxApi")
               \/ truthy (get hd k) = false ->
               hd' !! k = hd !! k).
Proof.
  split.
  - intros l' Hne. unfold cleanSensitiveHeaders.
    destruct (req_headers req) as [l|]; [|reflexivity].
    destruct (h !! l) as [hd|]; [|reflexivity].
    apply lookup_insert_ne. congruence.
  - intros l hd Hl Hhd. unfold cleanSensitiveHeaders. rewrite Hl, Hhd.
    eexists. split; [apply lookup_insert_eq|]. cbv zeta. unfold get.
    intros k Hk.
    destruct (truthy (default VUndefined (hd !! "BoxApi"))) eqn:Hbox.
    + rewrite (lookup_insert_ne hd "BoxApi" "Authorization") by done.
      destruct (truthy (default VUndefined (hd !! "Authorization")))
        eqn:Hauth.
      * destruct Hk as [[Ha Hb] | Hk].
        -- rewrite !lookup_insert_ne by done. reflexivity.
        -- destruct (decide (k = "Authorization")) as [->|Ha];
             [unfold get in Hk; congruence|].
           destruct (decide (k = "BoxApi")) as [->|Hb];
             [unfold get in Hk; congruence|].
           rewrite !lookup_insert_ne by done. reflexivity.
      * destruct (decide (k = "BoxApi")) as [->|Hb].
        -- destruct Hk as [[_ Hk] | Hk]; [done|].
           unfold get in Hk. congruence.
        -- rewrite lookup_insert_ne by done. reflexivity.
    + destruct (truthy (default VUndefined (hd !! "Authorization")))
        eqn:Hauth; [|reflexivity].
      destruct (decide (k = "Authorization")) as [->|Ha].
      * destruct Hk as [[Hk _] | Hk]; [done|].
        unfold get in Hk. congruence.
      * rewrite lookup_insert_ne by done. reflexivity.
Qed.

Lemma cleanSensitiveHeaders_scrubbed req h :
  cleanSensitiveHeaders req h
  = match req_headers req with
    | Some l =>
        match h !! l with
        | Some hd => <[l := scrubbed hd]> h
        | None => h
        end
    | None => h
    end.
Proof. reflexivity. Qed.

Lemma scrubbed_lookup hd k :
  scrubbed hd !! k
  = if bool_decide (k = "Authorization" \/ k = "BoxApi")
       && truthy (get hd k)
    then Some (VStr REMOVED_HEADER_MESSAGE)
    else hd !! k.
Proof.
  unfold scrubbed, get. cbv zeta.
  destruct (truthy (default VUndefined (hd !! "BoxApi"))) eqn:Hbox.
  - rewrite (lookup_insert_ne hd "BoxApi" "Authorization") by done.
    destruct (truthy (default VUndefined (hd !! "Authorization")))
      eqn:Hauth.
    + destruct (decide (k = "Authorization")) as [->|Ha].
      { rewrite lookup_insert_eq, Hauth. reflexivity. }
      rewrite lookup_insert_ne by done.
      destruct (decide (k = "BoxApi")) as [->|Hb].
      { rewrite lookup_insert_eq, Hbox. reflexivity. }
      rewrite lookup_insert_ne by done.
      rewrite bool_decide_eq_false_2 by tauto. reflexivity.
    + destruct (decide (k = "BoxApi")) as [->|Hb].
      { rewrite lookup_insert_eq, Hbox. reflexivity. }
      rewrite lookup_insert_ne by done.
      destruct (decide (k = "Authorization")) as [->|Ha].
      { rewrite Hauth, andb_false_r. reflexivity. }
      rewrite bool_decide_eq_false_2 by tauto. reflexivity.
  - destruct (truthy (default VUndefined (hd !! "Authorization")))
      eqn:Hauth.
    + destruct (decide (k = "Authorization")) as [->|Ha].
      { rewrite lookup_insert_eq, Hauth. reflexivity. }
      rewrite lookup_insert_ne by done.
      destruct (decide (k = "BoxApi")) as [->|Hb].
      { rewrite Hbox, andb_false_r. reflexivity. }
      rewrite bool_decide_eq_false_2 by tauto. reflexivity.
    + destruct (decide (k = "Authorization")) as [->|Ha].
      { rewrite Hauth, andb_false_r. reflexivity. }
      destruct (decide (k = "BoxApi")) as [->|Hb].
      { rewrite Hbox, andb_false_r. reflexivity. }
      rewrite bool_decide_eq_false_2 by tauto. reflexivity.
Qed.

(** X14: after [cleanSensitiveHeaders] the request's headers object holds
    no sensitive value: its [Authorization] and its [BoxApi] are each
    either falsy (absent, or empty) or the placeholder. *)
Theorem cleanSensitiveHeaders_leaves_no_secret req h l hd k :
  req_headers req = Some l ->
  h !! l = Some hd ->
  k = "Authorization" \/ k = "BoxApi" ->
  exists hd',
    cleanSensitiveHeaders req h !! l = Some hd'
    /\ (truthy (get hd' k) = true ->
        get hd' k = VStr REMOVED_HEADER_MESSAGE).
Proof.
  intros Hl Hhd Hk. rewrite cleanSensitiveHeaders_scrubbed, Hl, Hhd.
  eexists. split; [apply lookup_insert_eq|].
  unfold get at 1 2. rewrite scrubbed_lookup.
  rewrite bool_decide_eq_true_2 by assumption. cbn [andb].
  destruct (truthy (get hd k)) eqn:Ht; [reflexivity|].
  unfold get in Ht. intros Ht'. congruence.
Qed.

(** X12: [cleanSensitiveHeaders] is idempotent: the placeholder it writes
    is truthy, and is written over with the same placeholder. *)
Theorem cleanSensitiveHeaders_idempotent req h :
  cleanSensitiveHeaders req (cleanSensitiveHeaders req h)
  = cleanSensitiveHeaders req h.
Proof.
  rewrite !cleanSensitiveHeaders_scrubbed.
  destruct (req_headers req) as [l|] eqn:Hl; [|reflexivity].
  destruct (h !! l) as [hd|] eqn:Hhd; [|by rewrite Hhd].
  rewrite lookup_insert_eq, insert_insert_eq. f_equal.
  apply map_eq. intros k. rewrite scrubbed_lookup. unfold get.
  rewrite scrubbed_lookup. unfold get.
  destruct (bool_decide (k = "Authorization" \/ k = "BoxApi")); cbn;
    [|reflexivity].
  destruct (truthy (default VUndefined (hd !! k))) eqn:Hk; cbn.
  - reflexivity.
  - rewrite Hk. reflexivity.
Qed.

(** ** The model at work *)

(** The request shares its headers with the options: scrubbing the request
    scrubs the object the next attempt would send. *)
Example cleanSensitiveHeaders_writes_the_live_object :
  let c := Demo.cfg Demo.options 2 None in
  cleanSensitiveHeaders (Demo.sent c) Demo.heap0 !! 1%positive
  = Some {[ "Authorization" := VStr REMOVED_HEADER_MESSAGE ]}.
Proof. vm_compute. reflexivity. Qed.

(** 503 twice, then 200: two timers (the backoff for the first and the
    second retry), then the response goes to the callback, once. *)
Example scenario_503_503_200 :
  let '(m, unused, tr) :=
    Demo.run (Demo.cfg Demo.options 2 None) Demo.heap0 (Some 7%nat)
      [Resolved (Demo.answer 503); Resolved (Demo.answer 503);
       Resolved (Demo.answer 200)] in
  those is_callback tr = [EvCallback 7%nat None (Some (Demo.answer 200))]
  /\ those is_setTimeout tr = [EvSetTimeout (Num 2000); EvSetTimeout (Num 4000)]
  /\ queue m = [] /\ unused = [].
Proof. vm_compute. auto. Qed.

(** 507 is not temporary: the response is delivered as it is, at once. *)
Example scenario_507 :
  let '(m, unused, tr) :=
    Demo.run (Demo.cfg Demo.options 2 None) Demo.heap0 (Some 7%nat)
      [Resolved (Demo.answer 507)] in
  those is_callback tr = [EvCallback 7%nat None (Some (Demo.answer 507))]
  /\ those is_setTimeout tr = [].
Proof. vm_compute. auto. Qed.

(** C1 (the code does otherwise): with the call of [cleanSensitiveHeaders]
    commented out in [_handleResponse], the error delivered for a 500 on a
    request that is not retried again still reads the live Authorization
    header through [err.request.headers], not the placeholder. *)
Theorem delivered_error_exposes_authorization :
  let c := Demo.cfg Demo.options 0 None in
  let e := mark_maxRetriesExceeded (Demo.temporary c (Demo.answer 500)) in
  let run :=
    Demo.run c Demo.heap0 (Some 7%nat) [Resolved (Demo.answer 500)] in
  those is_callback run.2 = [EvCallback 7%nat (Some e) None]
  /\ delivered_headers run.1.1 (EvCallback 7%nat (Some e) None)
     = Some Demo.live_headers
  /\ get Demo.live_headers "Authorization" = VStr "Bearer secret"
  /\ get Demo.live_headers "Authorization" <> VStr REMOVED_HEADER_MESSAGE.
Proof.
  intros c e run.
  split; [vm_compute; reflexivity|].
  split; [vm_compute; reflexivity|].
  split; [vm_compute; reflexivity|].
  vm_compute. discriminate.
Qed.

(** ** The theorems at concrete inputs *)

Abbreviation demo_reachable :=
  (reachable Demo.qs_stringify Demo.statusLine Demo.getRetryTimeout
     Demo.StringToNumber Demo.process_hrtime None).
Abbreviation demo_loop :=
  (loop Demo.qs_stringify Demo.statusLine Demo.getRetryTimeout
     Demo.StringToNumber Demo.process_hrtime).
Abbreviation demo_step :=
  (step Demo.qs_stringify Demo.statusLine Demo.getRetryTimeout
     Demo.StringToNumber Demo.process_hrtime).

(** [Demo.in_flight c] is one job away from the start. *)
Ltac reach_in_flight :=
  eapply (reach_step _ _ _ _ _ _ _ _ _ _ [] _ [] _
            (reach_start _ _ _ _ _ _ _ _ _));
  reflexivity.

Example in_flight_reachable c :
  demo_reachable c Demo.heap0 (Some 7%nat) (Demo.in_flight c).
Proof. reach_in_flight. Qed.

(** Maximum 2 and a server that answers 429 three times: three attempts,
    two timers, one callback with the last error marked; the 200 it would
    have answered next is never asked for. *)
Lemma retries_exhausted_finalizes_witness :
  let c := Demo.cfg Demo.options 2 None in
  let world := [Resolved Demo.rate_limited; Resolved Demo.rate_limited;
                Resolved Demo.rate_limited; Resolved (Demo.answer 200)] in
  exists m tr last e,
    Demo.run c Demo.heap0 (Some 7%nat) world
    = (m, drop 3 world, tr)
    /\ queue m = []
    /\ world !! 2%nat = Some last
    /\ failure Demo.statusLine (Some (Demo.sent c)) last = Some e
    /\ those is_callback tr
       = [EvCallback 7%nat (Some (mark_maxRetriesExceeded e)) None]
    /\ maxRetriesExceeded (mark_maxRetriesExceeded e) = Some true
    /\ length (those is_axios tr) = 3%nat
    /\ length (those is_setTimeout tr) = 2%nat.
Proof.
  intros c world.
  apply (retries_exhausted_finalizes Demo.qs_stringify Demo.statusLine
           Demo.getRetryTimeout Demo.StringToNumber Demo.process_hrtime
           None c Demo.heap0 7%nat world).
  - reflexivity.
  - reflexivity.
  - intros strategy opts Hs. discriminate Hs.
  - repeat constructor.
  - cbn. lia.
Defined.


(** A maximum below zero is no count: the first failure sets the count
    to 0 and ends the operation. *)
Example negative_maximum :
  let c := Demo.cfg Demo.options (-1) None in
  let '(m, unused, tr) :=
    Demo.run c Demo.heap0 (Some 7%nat) [Resolved (Demo.answer 503)] in
  numRetries (this m) = Some 0 /\ those is_setTimeout tr = [].
Proof. vm_compute. split; reflexivity. Qed.

(** An upload answered 503. *)
Lemma formData_request_never_retried_witness :
  let c := Demo.cfg Demo.upload 5 None in
  exists m sent e,
    Demo.run c Demo.heap0 (Some 7%nat) [Resolved (Demo.answer 503)]
    = (m, [],
       [ [EvAxios (Demo.sent c) sent];
         [EvEmit (Some e) None; EvNextTick];
         [EvCallback 7%nat (Some e) None] ])
    /\ failure Demo.statusLine (Some (Demo.sent c))
         (Resolved (Demo.answer 503)) = Some e
    /\ queue m = []
    /\ numRetries (this m) = None.
Proof.
  intros c.
  apply (formData_request_never_retried Demo.qs_stringify Demo.statusLine
           Demo.getRetryTimeout Demo.StringToNumber Demo.process_hrtime
           None c Demo.heap0 7%nat (Resolved (Demo.answer 503)) []).
  - reflexivity.
  - reflexivity.
Defined.

(** A JWT grant answered 429. *)
Lemma jwt_grant_never_retried_witness :
  let c := Demo.cfg Demo.jwt_grant 5 None in
  exists m sent e,
    Demo.run c Demo.heap0 (Some 7%nat) [Resolved Demo.rate_limited]
    = (m, [],
       [ [EvAxios (Demo.sent c) sent];
         [EvEmit (Some e) None; EvNextTick];
         [EvCallback 7%nat (Some e) None] ])
    /\ failure Demo.statusLine (Some (Demo.sent c))
         (Resolved Demo.rate_limited) = Some e
    /\ queue m = []
    /\ numRetries (this m) = None.
Proof.
  intros c.
  apply (jwt_grant_never_retried Demo.qs_stringify Demo.statusLine
           Demo.getRetryTimeout Demo.StringToNumber Demo.process_hrtime
           None c Demo.heap0 7%nat (Resolved Demo.rate_limited) []
           {[ "grant_type" := VStr JWT_BEARER ]}).
  - reflexivity.
  - reflexivity.
  - reflexivity.
Defined.

(** A strategy that answers with its own Error, on a 503. *)
Lemma strategy_veto_finalizes_witness :
  let c := Demo.cfg Demo.options 2 (Some Demo.vetoing) in
  let e := Demo.temporary c (Demo.answer 503) in
  exists m',
    demo_loop 2 [Resolved (Demo.answer 503)] (Demo.in_flight c)
    = (m', [],
       [ [EvEmit (Some e) None; EvNextTick];
         [EvCallback 7%nat (Some Demo.veto) None] ])
    /\ queue m' = [].
Proof.
  intros c e.
  apply (strategy_veto_finalizes Demo.qs_stringify Demo.statusLine
           Demo.getRetryTimeout Demo.StringToNumber Demo.process_hrtime
           None c Demo.heap0 7%nat (Demo.in_flight c) (Resolved (Demo.answer 503))
           [] 0%nat e Demo.vetoing).
  - reach_in_flight.
  - reflexivity.
  - reflexivity.
  - reflexivity.
  - reflexivity.
  - cbn. lia.
  - reflexivity.
  - intros t. discriminate.
Defined.

(** A 429 with [retry-after: 120]: the timer is set to 120000. *)
Lemma retry_after_sets_the_delay_witness :
  let c := Demo.cfg Demo.options 2 None in
  let e := Demo.temporary c Demo.rate_limited in
  exists m' retryTimeout,
    demo_step [Resolved Demo.rate_limited] (Demo.in_flight c)
    = Some (m', [], [EvEmit (Some e) None; EvSetTimeout retryTimeout])
    /\ queue m' = [TExecute None]
    /\ (forall r hs v,
          err_response e = Some r -> resp_headers r = Some hs ->
          hs !! "retry-after" = Some v ->
          retryTimeout = num_mul (Demo.StringToNumber v) (Num 1000))
    /\ (retry_after e = None ->
        retryTimeout
        = Demo.getRetryTimeout
            (default 0 (numRetries (this (Demo.in_flight c))) + 1)
            (retryIntervalMS c)).
Proof.
  intros c e.
  apply (retry_after_sets_the_delay Demo.qs_stringify Demo.statusLine
           Demo.getRetryTimeout Demo.StringToNumber Demo.process_hrtime
           None c Demo.heap0 7%nat (Demo.in_flight c) (Resolved Demo.rate_limited)
           [] e).
  - reach_in_flight.
  - reflexivity.
  - reflexivity.
  - reflexivity.
  - reflexivity.
  - cbn. lia.
  - reflexivity.
Defined.

(** A strategy that answers null: the original error is delivered. *)
Example strategy_declines :
  let c := Demo.cfg Demo.options 2 (Some Demo.declining) in
  those is_callback
    (Demo.run c Demo.heap0 (Some 7%nat) [Resolved (Demo.answer 503)]).2
  = [EvCallback 7%nat (Some (Demo.temporary c (Demo.answer 503))) None].
Proof. vm_compute. reflexivity. Qed.

Example retry_after_120_seconds :
  those is_setTimeout
    (Demo.run (Demo.cfg Demo.options 2 None) Demo.heap0 (Some 7%nat)
       [Resolved Demo.rate_limited]).2
  = [EvSetTimeout (Num 120000)].
Proof. vm_compute. reflexivity. Qed.


(** A transport error on the only attempt allowed: the callback gets that
    error, marked, with the request and nothing else attached. *)
Lemma transport_error_delivery_witness :
  let c := Demo.cfg Demo.options 0 None in
  let d := mark_maxRetriesExceeded
             (attach_request (Some (Demo.sent c)) Demo.ECONNRESET) in
  (exists strategy opts,
      retryStrategy c = Some strategy /\ strategy opts = RetError d)
  \/ (err_request d = Some (Demo.sent c)
      /\ err_response d = err_response Demo.ECONNRESET
      /\ err_status d = err_status Demo.ECONNRESET
      /\ message d = message Demo.ECONNRESET).
Proof.
  intros c d.
  eapply (transport_error_delivery Demo.qs_stringify Demo.statusLine
            Demo.getRetryTimeout Demo.StringToNumber Demo.process_hrtime
            None c Demo.heap0 7%nat (Demo.in_flight c) Demo.ECONNRESET []
            _ _ _ 7%nat d None).
  - reach_in_flight.
  - reflexivity.
  - reflexivity.
  - vm_compute. tauto.
Defined.

(** C10 as stated fails when a strategy answers with its own Error: after
    a transport error the callback gets that Error, which has no request
    attached. *)
Lemma transport_error_delivery_counterexample :
  let c := Demo.cfg Demo.options 2 (Some Demo.vetoing) in
  let '(m, unused, tr) :=
    Demo.run c Demo.heap0 (Some 7%nat) [Rejected Demo.ECONNRESET] in
  those is_callback tr = [EvCallback 7%nat (Some Demo.veto) None]
  /\ err_request Demo.veto = None.
Proof. vm_compute. split; reflexivity. Qed.

(** ** More of the properties at concrete inputs *)

(** A 404. *)
Lemma non_temporary_response_is_delivered_witness :
  let c := Demo.cfg Demo.options 2 None in
  exists m sent,
    Demo.run c Demo.heap0 (Some 7%nat) [Resolved Inputs.not_found]
    = (m, [],
       [ [EvAxios (Demo.sent c) sent];
         [EvEmit None (Some Inputs.not_found); EvNextTick];
         [EvCallback 7%nat None (Some Inputs.not_found)] ])
    /\ queue m = []
    /\ numRetries (this m) = None
    /\ getResponseStream (this m) = Some Inputs.not_found.
Proof.
  intros c.
  apply (non_temporary_response_is_delivered Demo.qs_stringify
           Demo.statusLine Demo.getRetryTimeout Demo.StringToNumber
           Demo.process_hrtime None c Demo.heap0 7%nat Inputs.not_found []).
  reflexivity.
Defined.

(** A 503, a dropped connection, then a 200, with a strategy that always
    waits. *)
Lemma retried_failures_then_success_witness :
  let c := Demo.cfg Demo.options 2 (Some Inputs.patient) in
  let fails := [Resolved (Demo.answer 503); Rejected Demo.ECONNRESET] in
  exists m tr,
    Demo.run c Demo.heap0 (Some 7%nat)
      (fails ++ [Resolved (Demo.answer 200)])
    = (m, [], tr)
    /\ queue m = []
    /\ those is_callback tr
       = [EvCallback 7%nat None (Some (Demo.answer 200))]
    /\ length (those is_axios tr) = 3%nat
    /\ length (those is_setTimeout tr) = 2%nat
    /\ default 0 (numRetries (this m)) = 2.
Proof.
  intros c fails.
  apply (retried_failures_then_success Demo.qs_stringify Demo.statusLine
           Demo.getRetryTimeout Demo.StringToNumber Demo.process_hrtime
           None c Demo.heap0 7%nat fails (Demo.answer 200) []).
  - reflexivity.
  - reflexivity.
  - intros strategy opts Hs. injection Hs as <-. eexists. reflexivity.
  - repeat constructor.
  - cbn. lia.
  - reflexivity.
Defined.

(** The job that handles a 503 leaves the timer as the first call set
    it. *)
Lemma asyncRequestTimer_is_set_once_witness :
  let c := Demo.cfg Demo.options 2 None in
  asyncRequestTimer (Inputs.answered_503 c) = Some (0, 0).
Proof.
  intros c.
  eapply (asyncRequestTimer_is_set_once Demo.qs_stringify Demo.statusLine
            Demo.getRetryTimeout Demo.StringToNumber Demo.process_hrtime
            (Demo.in_flight c) [Resolved (Demo.answer 503)]
            (Inputs.answered_503 c) _ _ (0, 0)).
  - reflexivity.
  - reflexivity.
Defined.

(** And the heap as it was. *)
Lemma no_job_writes_the_heap_witness :
  let c := Demo.cfg Demo.options 2 None in
  heap (Inputs.answered_503 c) = heap (Demo.in_flight c).
Proof.
  intros c.
  eapply (no_job_writes_the_heap Demo.qs_stringify Demo.statusLine
            Demo.getRetryTimeout Demo.StringToNumber Demo.process_hrtime
            (Demo.in_flight c) [Resolved (Demo.answer 503)]
            (Inputs.answered_503 c) _ _).
  reflexivity.
Defined.

(** A 503 on the only attempt allowed. *)
Lemma response_error_delivery_witness :
  let c := Demo.cfg Demo.options 0 None in
  let r := Demo.answer 503 in
  let d := mark_maxRetriesExceeded (Demo.temporary c r) in
  isTemporaryError r = true
  /\ ((exists strategy opts,
         retryStrategy c = Some strategy /\ strategy opts = RetError d)
      \/ (err_request d = Some (Demo.sent c)
          /\ err_response d = Some r
          /\ err_status d = Some (status r)
          /\ message d = Demo.statusLine (status r))).
Proof.
  intros c r d.
  eapply (response_error_delivery Demo.qs_stringify Demo.statusLine
            Demo.getRetryTimeout Demo.StringToNumber Demo.process_hrtime
            None c Demo.heap0 7%nat (Demo.in_flight c) r []
            _ _ _ 7%nat d None).
  - reach_in_flight.
  - reflexivity.
  - reflexivity.
  - vm_compute. tauto.
Defined.

(** A 429 that says [retry-after: 120], with a strategy that says 10. *)
Lemma strategy_number_is_the_delay_witness :
  let c := Demo.cfg Demo.options 2 (Some Inputs.patient) in
  let e := Demo.temporary c Demo.rate_limited in
  exists m',
    demo_step [Resolved Demo.rate_limited] (Demo.in_flight c)
    = Some (m', [], [EvEmit (Some e) None; EvSetTimeout (Num 10)])
    /\ queue m' = [TExecute None]
    /\ numRetries (this m')
       = Some (default 0 (numRetries (this (Demo.in_flight c))) + 1).
Proof.
  intros c e.
  apply (strategy_number_is_the_delay Demo.qs_stringify Demo.statusLine
           Demo.getRetryTimeout Demo.StringToNumber Demo.process_hrtime
           None c Demo.heap0 7%nat (Demo.in_flight c)
           (Resolved Demo.rate_limited) [] e Inputs.patient (Num 10)).
  - reach_in_flight.
  - reflexivity.
  - reflexivity.
  - reflexivity.
  - reflexivity.
  - cbn. lia.
  - reflexivity.
  - reflexivity.
Defined.

(** The Authorization header of three. *)
Lemma cleanSensitiveHeaders_leaves_no_secret_witness :
  let c := Demo.cfg Demo.options 2 None in
  let h : Heap := {[ 1%positive := Inputs.three_headers ]} in
  exists hd',
    cleanSensitiveHeaders (Demo.sent c) h !! 1%positive = Some hd'
    /\ (truthy (get hd' "Authorization") = true ->
        get hd' "Authorization" = VStr REMOVED_HEADER_MESSAGE).
Proof.
  intros c h.
  apply (cleanSensitiveHeaders_leaves_no_secret (Demo.sent c) h 1%positive
           Inputs.three_headers "Authorization").
  - reflexivity.
  - reflexivity.
  - left. reflexivity.
Defined.

(** Scrubbing three headers: the two sensitive ones read as the
    placeholder, the third as before. *)
Example scrubbed_three_headers :
  scrubbed Inputs.three_headers
  = {[ "Authorization" := VStr REMOVED_HEADER_MESSAGE;
       "BoxApi" := VStr REMOVED_HEADER_MESSAGE;
       "User-Agent" := VStr "Box Node.js SDK" ]}.
Proof. vm_compute. reflexivity. Qed.
